(** * Post-upgrade tasks of kubeadm: a shallow embedding and its properties

    The development follows [cmd/kubeadm/app/phases/upgrade/postupgrade.go].
    The Go code is a sequence of calls to collaborators (cluster API, file
    system, clock, output stream).  Every such call is an [event]; a Go
    function becomes a program of the free monad [prog] over these events, and
    a [handler] gives the events a meaning on some world state.  Running a
    program yields its result, the final world and the trace of the calls it
    made together with what they returned. *)

From Stdlib Require Import ZArith Lia.
From stdpp Require Import gmap strings list fin_maps.

Local Open Scope Z_scope.

(** ** Errors *)

(** A Go [error] value: what [err.Error()] prints and what
    [apierrors.IsNotFound(err)] answers.  A nil error is [None]. *)
Record error : Type := mkError { Error : string; IsNotFound : bool }.

(** [fmt.Errorf]: a plain error string, never a "not found" API status. *)
Definition Errorf (msg : string) : error :=
  {| Error := msg; IsNotFound := false |}.

(** [%v] of an error value. *)
Definition Sprint_error (err : option error) : string :=
  match err with
  | Some e => Error e
  | None => "<nil>"
  end.

(** Joining messages with a separator, as [Aggregate.Error] does. *)
Fixpoint join_msgs (sep : string) (msgs : list string) : string :=
  match msgs with
  | [] => ""
  | [m] => m
  | m :: rest => m +:+ sep +:+ join_msgs sep rest
  end.

(** Modelled from the spec: the [Error] method of the aggregate that
    [errors.NewAggregate] of k8s.io/apimachinery/pkg/util/errors builds is
    not among the sources.  The spec has the aggregate describe all
    accumulated failures in order; the description of one failure is that
    failure's own, several are listed between brackets. *)
Definition AggregateError (errs : list error) : string :=
  match errs with
  | [] => ""
  | [e] => Error e
  | _ => "[" +:+ join_msgs ", " (Error <$> errs) +:+ "]"
  end.

(** Modelled from the spec: [errors.NewAggregate] of
    k8s.io/apimachinery/pkg/util/errors is not among the sources.  The spec
    has it return nil for an empty aggregate and otherwise a single error
    describing all accumulated failures in order. *)
Definition NewAggregate (errlist : list error) : option error :=
  match errlist with
  | [] => None
  | _ => Some (Errorf (AggregateError errlist))
  end.

(** Go's [append] of one element to a slice. *)
Definition append {A : Type} (s : list A) (x : A) : list A := (s ++ [x])%list.

(** [if err != nil { errs = append(errs, err) }] *)
Definition appendErr (errs : list error) (err : option error) : list error :=
  match err with
  | Some e => append errs e
  | None => errs
  end.

(** ** Data *)

(** [time.Time] as nanoseconds since the epoch, [time.Duration] as the
    int64 count of nanoseconds it is. *)
Definition Time : Type := Z.
Definition Duration : Type := Z.

Definition minDuration : Duration := - 2 ^ 63.
Definition maxDuration : Duration := 2 ^ 63 - 1.

Definition Nanosecond : Duration := 1.
Definition Second : Duration := 1000000000 * Nanosecond.
Definition Minute : Duration := 60 * Second.
Definition Hour : Duration := 60 * Minute.

(** [t.Sub(u)]: the difference, saturated to the range of a Duration. *)
Definition Sub (t u : Time) : Duration :=
  let d := t - u in
  if d <? minDuration then minDuration
  else if maxDuration <? d then maxDuration
  else d.

(** [var expiry = 180 * 24 * time.Hour] *)
Definition expiry : Duration := 180 * 24 * Hour.

(** The validity window of an [x509.Certificate]. *)
Record Certificate : Type := { NotBefore : Time; NotAfter : Time }.

(** The part of [appsv1.Deployment] the code reads; [ReadyReplicas] is an
    int32. *)
Record Deployment : Type := { Status_ReadyReplicas : Z }.

(** [version.Version], passed along only. *)
Record Version : Type := { components : list N; preRelease : string; buildMetadata : string }.

(** The fields of [kubeadmapi.MasterConfiguration] the code reads. *)
Record MasterConfiguration : Type := {
  NodeRegistration_Name : string;
  NodeRegistration_CRISocket : string;
  FeatureGates : gmap string bool
}.

(** [apiclient.Waiter] as built by [getWaiter]. *)
Inductive Waiter : Type :=
| DryRunWaiter
| KubeWaiter (timeout : Duration).

(** ** Constants *)

(** Package [constants] of kubeadm is not among the sources; each value
    below is the one kubeadm ships, where the spec only speaks of a legacy and
    a new DNS deployment, a fixed well-known kubelet path, and a certificate
    directory with fixed-named certificate and key files. *)
Module kubeadmconstants.

(** Modelled from the spec: the legacy DNS deployment. *)
Definition KubeDNS : string := "kube-dns".

(** Modelled from the spec: the new DNS deployment. *)
Definition CoreDNS : string := "coredns".

(** Modelled from the spec: the fixed well-known kubelet directory of a real
    run. *)
Definition KubeletRunDirectory : string := "/var/lib/kubelet".

(** Modelled from the spec: the directory of kubeadm's files. *)
Definition KubernetesDir : string := "/etc/kubernetes".

(** Modelled from the spec: where the static Pod manifests live below it. *)
Definition ManifestsSubDirName : string := "manifests".

(** Modelled from the spec: the fixed name of the API server certificate. *)
Definition APIServerCertName : string := "apiserver.crt".

(** Modelled from the spec: the fixed name of the API server key. *)
Definition APIServerKeyName : string := "apiserver.key".

End kubeadmconstants.

(** Package [features] of kubeadm is not among the sources. *)
Module features.

(** Modelled from the spec: the flag that selects the new DNS
    implementation. *)
Definition CoreDNS : string := "CoreDNS".

(** Modelled from the spec: the flag that allows the conversion to a
    self-hosted control plane. *)
Definition SelfHosting : string := "SelfHosting".

End features.

(** Modelled from the spec: [metav1.NamespaceSystem], the namespace of the
    DNS deployments. *)
Definition NamespaceSystem : string := "kube-system".

(** Modelled from the spec: [kubeadmapiv1alpha2.DefaultCertificatesDir], the
    certificate directory. *)
Definition DefaultCertificatesDir : string := "/etc/kubernetes/pki".

(** [filepath.Join] of a cleaned, non-empty directory and a plain name (no
    separator in it, neither "." nor ".."), as every call in the file has
    them: one separator between the two.  The cleaning Go does of other
    arguments is not modelled. *)
Definition filepath_Join (dir name : string) : string := dir +:+ "/" +:+ name.

Definition GetStaticPodDirectory : string :=
  filepath_Join kubeadmconstants.KubernetesDir kubeadmconstants.ManifestsSubDirName.

(** ** Events and programs *)

(** One constructor per collaborator call of the file; the index is the type
    of what the call returns.  A Go [(T, error)] result is [T + error]. *)
Inductive event : Type -> Type :=
| UploadConfiguration (cfg : MasterConfiguration) : event (option error)
| CreateConfigMap (cfg : MasterConfiguration) : event (option error)
| TempDir (dir pfx : string) : event (string + error)
| DownloadConfig (ver : Version) (kubeletDir : string) : event (option error)
| AnnotateCRISocket (nodeName criSocket : string) : event (option error)
| AllowBootstrapTokensToPostCSRs : event (option error)
| AutoApproveNodeBootstrapTokens : event (option error)
| AutoApproveNodeCertificateRotation : event (option error)
| IsControlPlaneSelfHosted : event bool
| CreateSelfHostedControlPlane (manifestsDir kubernetesDir : string)
    (cfg : MasterConfiguration) (waiter : Waiter) (dryRun : bool) : event (option error)
| CreateClusterInfoRBACRules : event (option error)
| CertsFromFile (file : string) : event (list Certificate + error)
| Now : event Time
| Mkdir (name : string) (perm : N) : event (option error)
| Rename (oldpath newpath : string) : event (option error)
| CreateAPIServerCertAndKeyFiles (cfg : MasterConfiguration) : event (option error)
| EnsureDNSAddon (cfg : MasterConfiguration) : event (option error)
| GetDeployment (namespace name : string) : event (Deployment + error)
| DeleteDeploymentForeground (namespace name : string) : event (option error)
| EnsureProxyAddon (cfg : MasterConfiguration) : event (option error)
| Printf (text : string) : event unit
| Println (text : string) : event unit
| Pause : event unit.

Inductive prog (A : Type) : Type :=
| Ret (a : A)
| Vis {X : Type} (e : event X) (k : X -> prog A).
Arguments Ret {A} a.
Arguments Vis {A X} e k.

Fixpoint bind {A B : Type} (m : prog A) (f : A -> prog B) : prog B :=
  match m with
  | Ret a => f a
  | Vis e k => Vis e (fun x => bind (k x) f)
  end.

Definition trigger {X : Type} (e : event X) : prog X := Vis e Ret.

#[export] Instance prog_ret : MRet prog := @Ret.
#[export] Instance prog_bind : MBind prog := fun A B f m => bind m f.

(** A call as it happened: the event and what it returned. *)
Inductive call : Type :=
| Call {X : Type} (e : event X) (x : X).

Definition handler (W : Type) : Type := forall X : Type, event X -> W -> X * W.

Fixpoint run {W A : Type} (h : handler W) (m : prog A) (w : W) : A * W * list call :=
  match m with
  | Ret a => (a, w, [])
  | Vis e k =>
      let '(x, w1) := h _ e w in
      let '(a, w2, tr) := run h (k x) w1 in
      (a, w2, Call e x :: tr)
  end.

(** ** What the code takes from its environment *)

(** The Go runtime and the packages outside this file that the code relies
    on without fixing their behaviour: [range] over a map visits every entry
    once in an order of the runtime's choosing, [%v] renders a map in some
    way, and a feature gate absent from the configuration takes its default
    from the table of package [features]. *)
Class Externals : Type := {
  range : gmap string string -> list (string * string);
  range_perm : forall m : gmap string string, range m ≡ₚ map_to_list m;
  Sprint_map : gmap string string -> string;
  InitFeatureGates_Default : string -> bool
}.

Section Code.
Context {ext : Externals}.

(** Modelled from the spec: [features.Enabled] is not among the sources.  A
    feature flag is enabled when the configuration says so, and has its
    default when the configuration does not name it. *)
Definition Enabled (featureList : gmap string bool) (featureName : string) : bool :=
  match featureList !! featureName with
  | Some enabled => enabled
  | None => InitFeatureGates_Default featureName
  end.

(** Modelled from the spec: [apiclient.TryRunCommand] is not among the
    sources.  It invokes the operation up to [failureThreshold] times with a
    fixed pause between attempts, and returns success on the first success or
    the last observed error once the attempts are exhausted. *)
Fixpoint TryRunCommand_from (f : prog (option error)) (attempts : nat)
    (last : option error) : prog (option error) :=
  match attempts with
  | O => mret last
  | S attempts' =>
      err ← f;
      match err with
      | None => mret None
      | Some _ =>
          match attempts' with
          | O => mret err
          | S _ => _ ← trigger Pause; TryRunCommand_from f attempts' err
          end
      end
  end.

(** Modelled from the spec: [apiclient.TryRunCommand], as the loop above
    started with no error observed. *)
Definition TryRunCommand (f : prog (option error)) (failureThreshold : nat) : prog (option error) :=
  TryRunCommand_from f failureThreshold None.

(** *** DNS deployment swap *)

(** The two names chosen at the head of the closure of
    [removeOldDNSDeploymentIfAnotherDNSIsUsed]:
    [(installedDeploymentName, deploymentToDelete)]. *)
Definition dnsDeploymentNames (cfg : MasterConfiguration) : string * string :=
  let installedDeploymentName := kubeadmconstants.KubeDNS in
  let deploymentToDelete := kubeadmconstants.CoreDNS in
  if Enabled (FeatureGates cfg) features.CoreDNS
  then (kubeadmconstants.CoreDNS, kubeadmconstants.KubeDNS)
  else (installedDeploymentName, deploymentToDelete).

(** The closure handed to [TryRunCommand]: one attempt. *)
Definition removeOldDNSDeployment_attempt (cfg : MasterConfiguration) : prog (option error) :=
  let '(installedDeploymentName, deploymentToDelete) := dnsDeploymentNames cfg in
  r ← trigger (GetDeployment NamespaceSystem installedDeploymentName);
  match r with
  | inr err => mret (Some err)
  | inl dnsDeployment =>
      if Status_ReadyReplicas dnsDeployment =? 0
      then mret (Some (Errorf "the DNS deployment isn't ready yet"))
      else
        err ← trigger (DeleteDeploymentForeground NamespaceSystem deploymentToDelete);
        match err with
        | Some e => if negb (IsNotFound e) then mret (Some e) else mret None
        | None => mret None
        end
  end.

Definition removeOldDNSDeploymentIfAnotherDNSIsUsed (cfg : MasterConfiguration) : prog (option error) :=
  TryRunCommand (removeOldDNSDeployment_attempt cfg) 10.

(** *** Self-hosting *)

Definition getWaiter (dryRun : bool) : Waiter :=
  if dryRun then DryRunWaiter else KubeWaiter (30 * Minute).

Definition upgradeToSelfHosting (cfg : MasterConfiguration) (dryRun : bool) : prog (option error) :=
  if Enabled (FeatureGates cfg) features.SelfHosting then
    selfHosted ← trigger IsControlPlaneSelfHosted;
    if negb selfHosted then
      let waiter := getWaiter dryRun in
      _ ← trigger (Println "[self-hosted] Creating self-hosted control plane.");
      err ← trigger (CreateSelfHostedControlPlane GetStaticPodDirectory
                       kubeadmconstants.KubernetesDir cfg waiter dryRun);
      match err with
      | Some e => mret (Some (Errorf ("error creating self hosted control plane: " +:+ Error e)))
      | None => mret None
      end
    else mret None
  else mret None.

(** *** Kubelet directory *)

Definition getKubeletDir (dryRun : bool) : prog (string + error) :=
  if dryRun then trigger (TempDir "" "kubeadm-upgrade-dryrun")
  else mret (inl kubeadmconstants.KubeletRunDirectory).

(** *** Moving files and rolling back *)

(** The loop of [rollbackFiles] over the entries still to visit. *)
Fixpoint rollbackFiles_loop (todo : list (string * string)) (errs : list error) : prog (list error) :=
  match todo with
  | [] => mret errs
  | (from, to) :: rest =>
      err ← trigger (Rename from to);
      rollbackFiles_loop rest (appendErr errs err)
  end.

Definition rollbackFiles (files : gmap string string) (originalErr : error) : prog (option error) :=
  errs ← rollbackFiles_loop (range files) [originalErr];
  mret (Some (Errorf ("couldn't move these files: " +:+ Sprint_map files
                      +:+ ". Got errors: " +:+ Sprint_error (NewAggregate errs)))).

(** The loop of [moveFiles] over the entries still to visit, with the map
    [filesToRecover] built so far. *)
Fixpoint moveFiles_loop (todo : list (string * string)) (filesToRecover : gmap string string)
    : prog (option error) :=
  match todo with
  | [] => mret None
  | (from, to) :: rest =>
      err ← trigger (Rename from to);
      match err with
      | Some e => rollbackFiles filesToRecover e
      | None => moveFiles_loop rest (<[to := from]> filesToRecover)
      end
  end.

Definition moveFiles (files : gmap string string) : prog (option error) :=
  moveFiles_loop (range files) ∅.

Definition backupAPIServerCertAndKey (certAndKeyDir : string) : prog (option error) :=
  let subDir := filepath_Join certAndKeyDir "expired" in
  err ← trigger (Mkdir subDir 502%N);
  match err with
  | Some e => mret (Some (Errorf ("failed to created backup directory " +:+ subDir +:+ ": " +:+ Error e)))
  | None =>
      let filesToMove : gmap string string :=
        <[filepath_Join certAndKeyDir kubeadmconstants.APIServerCertName :=
            filepath_Join subDir kubeadmconstants.APIServerCertName]>
        (<[filepath_Join certAndKeyDir kubeadmconstants.APIServerKeyName :=
            filepath_Join subDir kubeadmconstants.APIServerKeyName]> ∅) in
      moveFiles filesToMove
  end.

(** *** Certificate age *)

Definition shouldBackupAPIServerCertAndKey (certAndKeyDir : string) : prog (bool + error) :=
  let apiServerCert := filepath_Join certAndKeyDir kubeadmconstants.APIServerCertName in
  r ← trigger (CertsFromFile apiServerCert);
  match r with
  | inr err =>
      mret (inr (Errorf ("couldn't load the certificate file " +:+ apiServerCert +:+ ": " +:+ Error err)))
  | inl [] => mret (inr (Errorf "no certificate data found"))
  | inl (cert :: _) =>
      now ← trigger Now;
      if expiry <? Sub now (NotBefore cert) then mret (inl true) else mret (inl false)
  end.

(** *** The orchestrator *)

(** Lines 68-82: resolve the kubelet directory and download the kubelet
    configuration into it. *)
Definition kubeletConfigSteps (newK8sVer : Version) (dryRun : bool) (errs : list error)
    : prog (list error) :=
  r ← getKubeletDir dryRun;
  match r with
  | inl kubeletDir =>
      err ← trigger (DownloadConfig newK8sVer kubeletDir);
      match err with
      | Some e =>
          if negb (IsNotFound e && dryRun)
          then mret (append errs (Errorf ("error downloading kubelet configuration from the ConfigMap: "
                                         +:+ Error e)))
          else mret errs
      | None => mret errs
      end
  | inr err => mret (append errs err)
  end.

(** Lines 121-135: back up and reissue the API server certificate and key
    when the certificate is old enough. *)
Definition certBackupSteps (cfg : MasterConfiguration) (errs : list error) : prog (list error) :=
  let certAndKeyDir := DefaultCertificatesDir in
  r ← shouldBackupAPIServerCertAndKey certAndKeyDir;
  match r with
  | inr err =>
      _ ← trigger (Printf ("[postupgrade] WARNING: failed to determine to backup kube-apiserver cert and key: "
                           +:+ Error err));
      mret errs
  | inl true =>
      err ← backupAPIServerCertAndKey certAndKeyDir;
      _ ← match err with
          | Some e =>
              trigger (Printf ("[postupgrade] WARNING: failed to backup kube-apiserver cert and key: "
                               +:+ Error e))
          | None => mret tt
          end;
      err ← trigger (CreateAPIServerCertAndKeyFiles cfg);
      mret (appendErr errs err)
  | inl false => mret errs
  end.

(** Lines 142-146: remove the stale DNS deployment unless dry-running. *)
Definition removeOldDNSStep (cfg : MasterConfiguration) (dryRun : bool) (errs : list error)
    : prog (list error) :=
  if negb dryRun then
    err ← removeOldDNSDeploymentIfAnotherDNSIsUsed cfg;
    mret (appendErr errs err)
  else mret errs.

(** The body of [PerformPostUpgradeTasks] up to its [return]: the value of
    [errs] there. *)
Definition postUpgradeErrs (cfg : MasterConfiguration) (newK8sVer : Version) (dryRun : bool)
    : prog (list error) :=
  let errs : list error := [] in
  err ← trigger (UploadConfiguration cfg);
  let errs := appendErr errs err in
  err ← trigger (CreateConfigMap cfg);
  let errs :=
    match err with
    | Some e => append errs (Errorf ("error creating kubelet configuration ConfigMap: " +:+ Error e))
    | None => errs
    end in
  errs ← kubeletConfigSteps newK8sVer dryRun errs;
  err ← trigger (AnnotateCRISocket (NodeRegistration_Name cfg) (NodeRegistration_CRISocket cfg));
  let errs :=
    match err with
    | Some e => append errs (Errorf ("error uploading crisocket: " +:+ Error e))
    | None => errs
    end in
  err ← trigger AllowBootstrapTokensToPostCSRs;
  let errs := appendErr errs err in
  err ← trigger AutoApproveNodeBootstrapTokens;
  let errs := appendErr errs err in
  err ← trigger AutoApproveNodeCertificateRotation;
  let errs := appendErr errs err in
  err ← upgradeToSelfHosting cfg dryRun;
  let errs := appendErr errs err in
  err ← trigger CreateClusterInfoRBACRules;
  let errs := appendErr errs err in
  errs ← certBackupSteps cfg errs;
  err ← trigger (EnsureDNSAddon cfg);
  let errs := appendErr errs err in
  errs ← removeOldDNSStep cfg dryRun errs;
  err ← trigger (EnsureProxyAddon cfg);
  let errs := appendErr errs err in
  mret errs.

Definition PerformPostUpgradeTasks (cfg : MasterConfiguration) (newK8sVer : Version) (dryRun : bool)
    : prog (option error) :=
  errs ← postUpgradeErrs cfg newK8sVer dryRun;
  mret (NewAggregate errs).

End Code.

(** ** Reading runs and traces *)

Definition result {W A : Type} (h : handler W) (m : prog A) (w : W) : A := (run h m w).1.1.
Definition world {W A : Type} (h : handler W) (m : prog A) (w : W) : W := (run h m w).1.2.
Definition trace {W A : Type} (h : handler W) (m : prog A) (w : W) : list call := (run h m w).2.

(** The Go function a call went to. *)
Definition call_name (c : call) : string :=
  match c with
  | Call e _ =>
      match e with
      | UploadConfiguration _ => "uploadconfig.UploadConfiguration"
      | CreateConfigMap _ => "kubeletphase.CreateConfigMap"
      | TempDir _ _ => "ioutil.TempDir"
      | DownloadConfig _ _ => "kubeletphase.DownloadConfig"
      | AnnotateCRISocket _ _ => "patchnodephase.AnnotateCRISocket"
      | AllowBootstrapTokensToPostCSRs => "nodebootstraptoken.AllowBootstrapTokensToPostCSRs"
      | AutoApproveNodeBootstrapTokens => "nodebootstraptoken.AutoApproveNodeBootstrapTokens"
      | AutoApproveNodeCertificateRotation => "nodebootstraptoken.AutoApproveNodeCertificateRotation"
      | IsControlPlaneSelfHosted => "IsControlPlaneSelfHosted"
      | CreateSelfHostedControlPlane _ _ _ _ _ => "selfhosting.CreateSelfHostedControlPlane"
      | CreateClusterInfoRBACRules => "clusterinfo.CreateClusterInfoRBACRules"
      | CertsFromFile _ => "certutil.CertsFromFile"
      | Now => "time.Now"
      | Mkdir _ _ => "os.Mkdir"
      | Rename _ _ => "os.Rename"
      | CreateAPIServerCertAndKeyFiles _ => "certsphase.CreateAPIServerCertAndKeyFiles"
      | EnsureDNSAddon _ => "dns.EnsureDNSAddon"
      | GetDeployment _ _ => "Deployments.Get"
      | DeleteDeploymentForeground _ _ => "apiclient.DeleteDeploymentForeground"
      | EnsureProxyAddon _ => "proxy.EnsureProxyAddon"
      | Printf _ => "fmt.Printf"
      | Println _ => "fmt.Println"
      | Pause => "time.Sleep"
      end
  end.

(** The steps of the orchestrator that no branch guards, in source order. *)
Definition unconditional_steps : list string :=
  [ "uploadconfig.UploadConfiguration";
    "kubeletphase.CreateConfigMap";
    "patchnodephase.AnnotateCRISocket";
    "nodebootstraptoken.AllowBootstrapTokensToPostCSRs";
    "nodebootstraptoken.AutoApproveNodeBootstrapTokens";
    "nodebootstraptoken.AutoApproveNodeCertificateRotation";
    "clusterinfo.CreateClusterInfoRBACRules";
    "certutil.CertsFromFile";
    "dns.EnsureDNSAddon";
    "proxy.EnsureProxyAddon" ].

(** The error the orchestrator appends for a failed call of one of its own
    single-call steps, if the call is one and failed. *)
Definition step_failure (c : call) : option error :=
  match c with
  | Call e x =>
      match e in event X return X -> option error with
      | UploadConfiguration _ => fun err => err
      | CreateConfigMap _ => fun err =>
          (fun e => Errorf ("error creating kubelet configuration ConfigMap: " +:+ Error e)) <$> err
      | TempDir _ _ => fun r => match r with inl _ => None | inr err => Some err end
      | AnnotateCRISocket _ _ => fun err =>
          (fun e => Errorf ("error uploading crisocket: " +:+ Error e)) <$> err
      | AllowBootstrapTokensToPostCSRs => fun err => err
      | AutoApproveNodeBootstrapTokens => fun err => err
      | AutoApproveNodeCertificateRotation => fun err => err
      | CreateSelfHostedControlPlane _ _ _ _ _ => fun err =>
          (fun e => Errorf ("error creating self hosted control plane: " +:+ Error e)) <$> err
      | CreateClusterInfoRBACRules => fun err => err
      | CreateAPIServerCertAndKeyFiles _ => fun err => err
      | EnsureDNSAddon _ => fun err => err
      | EnsureProxyAddon _ => fun err => err
      | _ => fun _ => None
      end x
  end.

(** Whether a call came back without failure; a fetched deployment counts
    when it has a ready replica. *)
Definition call_ok (c : call) : bool :=
  match c with
  | Call e x =>
      match e in event X return X -> bool with
      | TempDir _ _ => fun r => match r with inl _ => true | inr _ => false end
      | CertsFromFile _ => fun r => match r with inl (_ :: _) => true | _ => false end
      | GetDeployment _ _ => fun r =>
          match r with
          | inl d => negb (Status_ReadyReplicas d =? 0)
          | inr _ => false
          end
      | IsControlPlaneSelfHosted => fun _ => true
      | Now => fun _ => true
      | Printf _ => fun _ => true
      | Println _ => fun _ => true
      | Pause => fun _ => true
      | _ => fun err => match err with None => true | Some _ => false end
      end x
  end.

(** A rename as it happened: old path, new path, outcome. *)
Definition rename_of (c : call) : option (string * string * option error) :=
  match c with
  | Call e x =>
      match e in event X return X -> option (string * string * option error) with
      | Rename oldpath newpath => fun err => Some (oldpath, newpath, err)
      | _ => fun _ => None
      end x
  end.

(** Calls that change the file system under the certificate directory. *)
Definition is_fs_mutation (c : call) : bool :=
  match c with
  | Call (Mkdir _ _) _ | Call (Rename _ _) _ | Call (CreateAPIServerCertAndKeyFiles _) _ => true
  | _ => false
  end.

Definition is_rename (c : call) : bool :=
  match c with Call (Rename _ _) _ => true | _ => false end.

Definition is_convert (c : call) : bool :=
  match c with Call (CreateSelfHostedControlPlane _ _ _ _ _) _ => true | _ => false end.

Definition is_dns_swap (c : call) : bool :=
  match c with
  | Call (GetDeployment _ _) _ | Call (DeleteDeploymentForeground _ _) _ => true
  | _ => false
  end.

Definition is_delete (c : call) : bool :=
  match c with Call (DeleteDeploymentForeground _ _) _ => true | _ => false end.

(** Calls of the backup determination and of the backup itself. *)
Definition is_backup_call (c : call) : bool :=
  match c with
  | Call (CertsFromFile _) _ | Call (Mkdir _ _) _ | Call (Rename _ _) _ => true
  | _ => false
  end.

Definition is_printf (c : call) : bool :=
  match c with Call (Printf _) _ => true | _ => false end.

(** The text holds the messages one after the other, in this order. *)
Inductive mentions_in_order : list string -> string -> Prop :=
| mentions_nil (text : string) : mentions_in_order [] text
| mentions_cons (m : string) (ms : list string) (before rest : string) :
    mentions_in_order ms rest ->
    mentions_in_order (m :: ms) (before +:+ m +:+ rest).

(** ** A file system *)

Inductive node : Type :=
| Dir
| File (content : string).

(** Reasons beyond the ones below for which the system refuses a call
    (permissions, a missing parent, a full disk), as a function of the state
    of the file system. *)
Record fs_policy : Type := {
  mkdir_denied : gmap string node -> string -> option error;
  rename_denied : gmap string node -> string -> string -> option error
}.

(** [os.Mkdir]: fails when the name exists already or the system refuses;
    creates the directory otherwise. *)
Definition os_Mkdir (pol : fs_policy) (fs : gmap string node) (name : string)
    : option error * gmap string node :=
  match fs !! name with
  | Some _ => (Some (Errorf ("mkdir " +:+ name +:+ ": file exists")), fs)
  | None =>
      match mkdir_denied pol fs name with
      | Some e => (Some e, fs)
      | None => (None, <[name := Dir]> fs)
      end
  end.

(** [os.Rename]: fails when the old path is absent or the system refuses;
    moves the entry otherwise, replacing what the new path held. *)
Definition os_Rename (pol : fs_policy) (fs : gmap string node) (oldpath newpath : string)
    : option error * gmap string node :=
  match fs !! oldpath with
  | None => (Some (Errorf ("rename " +:+ oldpath +:+ " " +:+ newpath
                           +:+ ": no such file or directory")), fs)
  | Some n =>
      match rename_denied pol fs oldpath newpath with
      | Some e => (Some e, fs)
      | None => (None, <[newpath := n]> (delete oldpath fs))
      end
  end.

(** A handler for a world with this file system in front of another world:
    [os.Mkdir] and [os.Rename] act on the file system, every other call goes
    to the given handler.  What [certsphase.CreateAPIServerCertAndKeyFiles]
    writes is not modelled: that call goes to the given handler as well and
    leaves this file system as it is. *)
Definition with_fs {W : Type} (pol : fs_policy) (h : handler W)
    : handler (gmap string node * W) :=
  fun X e =>
    match e in event X return gmap string node * W -> X * (gmap string node * W) with
    | Mkdir name _ => fun s =>
        let '(err, fs') := os_Mkdir pol s.1 name in (err, (fs', s.2))
    | Rename oldpath newpath => fun s =>
        let '(err, fs') := os_Rename pol s.1 oldpath newpath in (err, (fs', s.2))
    | e' => fun s => let '(x, w') := h _ e' s.2 in (x, (s.1, w'))
    end.

(** ** Concrete environments *)

(** A runtime that ranges over a map in the order of its entry list and
    prints it in the same order; CoreDNS is on by default. *)
Definition listing_externals : Externals := {|
  range := map_to_list;
  range_perm := fun m => Permutation_refl (map_to_list m);
  Sprint_map := fun m =>
    "map[" +:+ join_msgs " " ((fun kv : string * string => kv.1 +:+ ":" +:+ kv.2) <$> map_to_list m) +:+ "]";
  InitFeatureGates_Default := fun name => bool_decide (name = features.CoreDNS)
|}.

Definition permissive : fs_policy :=
  {| mkdir_denied := fun _ _ => None; rename_denied := fun _ _ _ => None |}.

(** What a scripted cluster answers. *)
Record script : Type := {
  tempdir_result : string + error;
  download_result : option error;
  certs_result : list Certificate + error;
  clock : Time;
  convert_result : option error;
  deployment_result : Deployment + error;
  delete_result : option error
}.

(** A cluster that answers from a script; its state is whether the control
    plane is self-hosted, which a successful conversion makes true. *)
Definition scripted (s : script) : handler bool :=
  fun X e =>
    match e in event X return bool -> X * bool with
    | TempDir _ _ => fun w => (tempdir_result s, w)
    | DownloadConfig _ _ => fun w => (download_result s, w)
    | IsControlPlaneSelfHosted => fun w => (w, w)
    | CreateSelfHostedControlPlane _ _ _ _ _ => fun w =>
        (convert_result s, match convert_result s with None => true | Some _ => w end)
    | CertsFromFile _ => fun w => (certs_result s, w)
    | Now => fun w => (clock s, w)
    | GetDeployment _ _ => fun w => (deployment_result s, w)
    | DeleteDeploymentForeground _ _ => fun w => (delete_result s, w)
    | Printf _ => fun w => (tt, w)
    | Println _ => fun w => (tt, w)
    | Pause => fun w => (tt, w)
    | _ => fun w => (None, w)
    end.

(** A cluster that answers from a script and keeps no state: its control
    plane never reports itself self-hosted, as where conversions are only
    simulated. *)
Definition stateless (s : script) : handler unit :=
  fun X e _ => ((scripted s X e false).1, tt).

Definition day : Duration := 24 * Hour.

(** The kubelet configuration cannot be downloaded and the DNS deployment
    never gets a ready replica; everything else succeeds. *)
Definition unready : script := {|
  tempdir_result := inl "/tmp/kubeadm-upgrade-dryrun012345678";
  download_result := Some (mkError "configmap unreachable" false);
  certs_result := inl [ {| NotBefore := 0; NotAfter := 365 * 24 * Hour |} ];
  clock := 0;
  convert_result := None;
  deployment_result := inl {| Status_ReadyReplicas := 0 |};
  delete_result := None
|}.

(** Everything succeeds; the certificate was issued [age] before now. *)
Definition healthy (age : Duration) : script := {|
  tempdir_result := inl "/tmp/kubeadm-upgrade-dryrun012345678";
  download_result := None;
  certs_result := inl [ {| NotBefore := 0; NotAfter := 365 * day |} ];
  clock := age;
  convert_result := None;
  deployment_result := inl {| Status_ReadyReplicas := 1 |};
  delete_result := None
|}.

Definition sample_cfg : MasterConfiguration := {|
  NodeRegistration_Name := "master-0";
  NodeRegistration_CRISocket := "/var/run/dockershim.sock";
  FeatureGates := ∅
|}.

Definition selfhosting_cfg : MasterConfiguration := {|
  NodeRegistration_Name := "master-0";
  NodeRegistration_CRISocket := "/var/run/dockershim.sock";
  FeatureGates := {[ features.SelfHosting := true ]}
|}.

Definition sample_version : Version :=
  {| components := [1%N; 11%N; 0%N]; preRelease := ""; buildMetadata := "" |}.

(** A certificate directory holding the certificate and the key. *)
Definition pki_fs : gmap string node :=
  <[DefaultCertificatesDir := Dir]>
  (<[filepath_Join DefaultCertificatesDir kubeadmconstants.APIServerCertName := File "cert"]>
  (<[filepath_Join DefaultCertificatesDir kubeadmconstants.APIServerKeyName := File "key"]> ∅)).

(** The moves [backupAPIServerCertAndKey] asks for in the default
    certificate directory. *)
Definition pki_moves : gmap string string :=
  <[filepath_Join DefaultCertificatesDir kubeadmconstants.APIServerCertName :=
      filepath_Join (filepath_Join DefaultCertificatesDir "expired") kubeadmconstants.APIServerCertName]>
  (<[filepath_Join DefaultCertificatesDir kubeadmconstants.APIServerKeyName :=
      filepath_Join (filepath_Join DefaultCertificatesDir "expired") kubeadmconstants.APIServerKeyName]> ∅).

(** The certificate directory with the backup directory made and the
    certificate gone missing. *)
Definition pki_fs_without_cert : gmap string node :=
  <[filepath_Join DefaultCertificatesDir "expired" := Dir]>
  (delete (filepath_Join DefaultCertificatesDir kubeadmconstants.APIServerCertName) pki_fs).

(** The renames of a trace as (old path, new path), and the errors of those
    that failed, both in trace order. *)
Definition renames (tr : list call) : list (string * string) :=
  omap (fun c => (fun r : string * string * option error => r.1) <$> rename_of c) tr.

Definition rename_errors (tr : list call) : list error :=
  omap (fun c => rename_of c ≫= (fun r : string * string * option error => r.2)) tr.

(** The trace of renaming every pair of a list with success. *)
Definition renamed_ok (pairs : list (string * string)) : list call :=
  (fun p : string * string => Call (Rename p.1 p.2) None) <$> pairs.

(** A move undone: the destination goes back to the source. *)
Definition reversal (p : string * string) : string * string := (p.2, p.1).

(** [filesToRecover] after the given moves went through. *)
Definition recorded (moved : list (string * string)) (filesToRecover : gmap string string)
    : gmap string string :=
  foldl (fun m p => <[p.2 := p.1]> m) filesToRecover moved.

(** ** The orchestrator as a chain of steps *)

(** A step runs a program that may read [errs] and then updates [errs] with
    what the program returned. *)
Record step : Type := {
  step_ty : Type;
  step_body : list error -> prog step_ty;
  step_update : list error -> step_ty -> list error
}.

Definition step_prog (s : step) (errs : list error) : prog (list error) :=
  x ← step_body s errs;
  mret (step_update s errs x).

Fixpoint chain (steps : list step) (errs : list error) : prog (list error) :=
  match steps with
  | [] => mret errs
  | s :: rest => x ← step_body s errs; chain rest (step_update s errs x)
  end.

(** A single collaborator call whose failure is appended, possibly wrapped. *)
Definition call_step (e : event (option error)) (wrap : error -> error) : step := {|
  step_body := fun _ => trigger e;
  step_update := fun errs err =>
    match err with Some e' => append errs (wrap e') | None => errs end
|}.

(** A block of the orchestrator that takes [errs] and returns it updated. *)
Definition block_step (m : list error -> prog (list error)) : step :=
  {| step_body := m; step_update := fun _ errs' => errs' |}.

(** A function of the file whose error, if any, is appended. *)
Definition func_step (m : prog (option error)) : step :=
  {| step_body := fun _ => m; step_update := appendErr |}.

(** A step of the orchestrator takes [errs] and returns it with further
    errors appended: among them, in order, the failure of every single-call
    step it made; it makes the calls [names], in order; and it appends
    nothing when every call outside the certificate backup came back without
    failure. *)
Definition appends_only (names : list string) (m : list error -> prog (list error)) : Prop :=
  forall (W : Type) (h : handler W) (w : W) (errs : list error),
  exists new : list error,
    result h (m errs) w = errs ++ new /\
    sublist (omap step_failure (trace h (m errs) w)) new /\
    sublist names (call_name <$> trace h (m errs) w) /\
    (Forall (fun c => is_backup_call c || call_ok c = true) (trace h (m errs) w) -> new = []).


Definition trace_all {A : Type} (P : call -> Prop) (m : prog A) : Prop :=
  forall (W : Type) (h : handler W) (w : W), Forall P (trace h m w).


(** The body of [PerformPostUpgradeTasks] step by step. *)
Definition postUpgradeSteps {ext : Externals} (cfg : MasterConfiguration) (newK8sVer : Version)
    (dryRun : bool) : list step :=
  [ call_step (UploadConfiguration cfg) id;
    call_step (CreateConfigMap cfg)
      (fun e => Errorf ("error creating kubelet configuration ConfigMap: " +:+ Error e));
    block_step (kubeletConfigSteps newK8sVer dryRun);
    call_step (AnnotateCRISocket (NodeRegistration_Name cfg) (NodeRegistration_CRISocket cfg))
      (fun e => Errorf ("error uploading crisocket: " +:+ Error e));
    call_step AllowBootstrapTokensToPostCSRs id;
    call_step AutoApproveNodeBootstrapTokens id;
    call_step AutoApproveNodeCertificateRotation id;
    func_step (upgradeToSelfHosting cfg dryRun);
    call_step CreateClusterInfoRBACRules id;
    block_step (certBackupSteps cfg);
    call_step (EnsureDNSAddon cfg) id;
    block_step (removeOldDNSStep cfg dryRun);
    call_step (EnsureProxyAddon cfg) id ].

(** The conversions to a self-hosted control plane a trace holds. *)
Definition conversions (tr : list call) : list call := List.filter is_convert tr.

(** The message the orchestrator appends for a failed download. *)
Definition download_failure (e : error) : error :=
  Errorf ("error downloading kubelet configuration from the ConfigMap: " +:+ Error e).

(** Two calls of [upgradeToSelfHosting] in a row. *)
Definition upgradeToSelfHosting_twice {ext : Externals} (cfg : MasterConfiguration) (dryRun : bool)
    : prog (option error * option error) :=
  first ← upgradeToSelfHosting cfg dryRun;
  second ← upgradeToSelfHosting cfg dryRun;
  mret (first, second).

(** The two warnings of the certificate backup. *)
Definition determine_warning (err : error) : string :=
  "[postupgrade] WARNING: failed to determine to backup kube-apiserver cert and key: " +:+ Error err.

Definition backup_warning (err : error) : string :=
  "[postupgrade] WARNING: failed to backup kube-apiserver cert and key: " +:+ Error err.

(** ** Properties of every event a program can issue *)

Fixpoint events_all {A : Type} (Q : forall X : Type, event X -> Prop) (m : prog A) : Prop :=
  match m with
  | Ret _ => True
  | Vis e k => Q _ e /\ forall x, events_all Q (k x)
  end.

(** The event does not move the path away. *)
Definition keeps_path (p : string) (X : Type) (e : event X) : Prop :=
  match e with
  | Rename oldpath _ => oldpath <> p
  | _ => True
  end.

(** The event is not a call to the file system. *)
Definition off_fs (X : Type) (e : event X) : Prop :=
  match e with
  | Mkdir _ _ | Rename _ _ => False
  | _ => True
  end.

(** Two backups of the same directory in a row. *)
Definition backup_twice {ext : Externals} (certAndKeyDir : string)
    : prog (option error * option error) :=
  first ← backupAPIServerCertAndKey certAndKeyDir;
  second ← backupAPIServerCertAndKey certAndKeyDir;
  mret (first, second).

(** A dry run on a healthy cluster whose certificate was issued 181 days
    ago, and the state it ends in, the reissued pair left out. *)
Definition aged_cluster : handler (gmap string node * bool) :=
  with_fs permissive (scripted (healthy (181 * day))).

Definition dry_run_task : prog (option error) :=
  PerformPostUpgradeTasks (ext := listing_externals) sample_cfg sample_version true.

Definition dry_run_fs : gmap string node :=
  (world aged_cluster dry_run_task (pki_fs, false)).1.

(** A healthy cluster with a fresh certificate, in front of a permissive
    file system. *)
Definition fresh_cluster : handler (gmap string node * bool) :=
  with_fs permissive (scripted (healthy 0)).

(** The certificate directory after a first backup. *)
Definition pki_fs_backed_up : gmap string node :=
  <[filepath_Join DefaultCertificatesDir "expired" := Dir]> pki_fs.

(** Modelled from the spec: [IsControlPlaneSelfHosted] and
    [selfhosting.CreateSelfHostedControlPlane] are not among the sources.
    The spec has the check of the self-hosted state make the conversion
    idempotent: in such a cluster, once a conversion has succeeded the check
    answers that the control plane is self-hosted. *)
Definition reports_conversion {W : Type} (h : handler W) (convert : event (option error)) : Prop :=
  forall w' : W,
    (h _ convert w').1 = None ->
    (h _ IsControlPlaneSelfHosted (h _ convert w').2).1 = true.

(** A map that is no FileMoveSet: two sources share the destination [x];
    and a file system holding those two sources but not [b]. *)
Definition clashing_moves : gmap string string :=
  <["a" := "x"]> (<["c" := "x"]> (<["b" := "y"]> ∅)).

Definition clashing_fs : gmap string node :=
  <["a" := File "A"]> (<["c" := File "C"]> ∅).

(** ** Further readings of a trace *)

(** What a call of [certutil.CertsFromFile] returned, and the time a call of
    [time.Now] read. *)
Definition loaded_certs (c : call) : option (list Certificate + error) :=
  match c with
  | Call e x =>
      match e in event X return X -> option (list Certificate + error) with
      | CertsFromFile _ => fun r => Some r
      | _ => fun _ => None
      end x
  end.

Definition clock_read (c : call) : option Time :=
  match c with
  | Call e x =>
      match e in event X return X -> option Time with
      | Now => fun t => Some t
      | _ => fun _ => None
      end x
  end.

(** Whether the first load of a certificate file in the trace found a
    certificate that the clock read right after shows to be older than
    [expiry]. *)
Fixpoint backup_due (tr : list call) : bool :=
  match tr with
  | [] => false
  | c :: rest =>
      match loaded_certs c with
      | Some (inl (cert :: _)) =>
          match rest with
          | c' :: _ =>
              match clock_read c' with
              | Some now => expiry <? Sub now (NotBefore cert)
              | None => false
              end
          | [] => false
          end
      | Some _ => false
      | None => backup_due rest
      end
  end.

(** The calls of a trace that change the file system under the certificate
    directory. *)
Definition fs_mutations (tr : list call) : list call := List.filter is_fs_mutation tr.

(** Whether the call is the check of the self-hosted state answering yes. *)
Definition said_selfhosted (c : call) : bool :=
  match c with
  | Call e x =>
      match e in event X return X -> bool with
      | IsControlPlaneSelfHosted => fun answer => answer
      | _ => fun _ => false
      end x
  end.

(** The call renames a source of the map to its destination, or such a
    destination back to its source. *)
Definition moves_entry (files : gmap string string) (c : call) : Prop :=
  exists from to r,
    files !! from = Some to /\
    (c = Call (Rename from to) r \/ c = Call (Rename to from) r).

(** The call is one the backup of a certificate directory may make: making
    the "expired" sub-directory, or renaming the certificate or the key
    between the directory and the sub-directory. *)
Definition backup_call_of (certAndKeyDir : string) (c : call) : Prop :=
  let subDir := filepath_Join certAndKeyDir "expired" in
  (exists r, c = Call (Mkdir subDir 502%N) r) \/
  (exists name r,
     (name = kubeadmconstants.APIServerCertName \/ name = kubeadmconstants.APIServerKeyName) /\
     (c = Call (Rename (filepath_Join certAndKeyDir name) (filepath_Join subDir name)) r \/
      c = Call (Rename (filepath_Join subDir name) (filepath_Join certAndKeyDir name)) r)).

(** ** File systems with moves through *)

(** [fs] is [fs0] with the moves [moved] through: every source was there and
    is gone, every destination holds what the source held, every other path
    is as it was. *)
Definition moved_over (fs0 fs : gmap string node) (moved : list (string * string)) : Prop :=
  (forall p, p ∈ moved -> fs !! p.1 = None /\ fs !! p.2 = fs0 !! p.1 /\ is_Some (fs0 !! p.1)) /\
  (forall k, k ∉ moved.*1 -> k ∉ moved.*2 -> fs !! k = fs0 !! k).

(** Moves that do not get in each other's way: no two share a source or a
    destination, and no destination is a source. *)
Definition separate (moves : list (string * string)) : Prop :=
  NoDup moves.*1 /\ NoDup moves.*2 /\ (forall k, k ∈ moves.*1 -> k ∉ moves.*2).

(** The same for a map of moves, whose sources are distinct by themselves. *)
Definition separate_map (files : gmap string string) : Prop :=
  NoDup (map_to_list files).*2 /\
  (forall from to, files !! from = Some to -> files !! to = None).

(** The map [filesToMove] that [backupAPIServerCertAndKey] builds. *)
Definition backup_moves (certAndKeyDir : string) : gmap string string :=
  <[filepath_Join certAndKeyDir kubeadmconstants.APIServerCertName :=
      filepath_Join (filepath_Join certAndKeyDir "expired") kubeadmconstants.APIServerCertName]>
  (<[filepath_Join certAndKeyDir kubeadmconstants.APIServerKeyName :=
      filepath_Join (filepath_Join certAndKeyDir "expired") kubeadmconstants.APIServerKeyName]> ∅).

(** The calls of a trace that came back with a failure. *)
Definition failures (tr : list call) : list call :=
  List.filter (fun c => negb (call_ok c)) tr.

(** A handler that answers every load of a certificate file with the given
    certificates and passes every other call on. *)
Definition answering_certs {W : Type} (certs : list Certificate) (h : handler W) : handler W :=
  fun X e =>
    match e in event X return W -> X * W with
    | CertsFromFile _ => fun w => (inl certs, w)
    | e' => h _ e'
    end.

(** The calls of the kubelet configuration steps in a trace. *)
Definition is_kubelet_call (c : call) : bool :=
  match c with
  | Call (TempDir _ _) _ | Call (DownloadConfig _ _) _ => true
  | _ => false
  end.

Definition kubelet_calls (tr : list call) : list call := List.filter is_kubelet_call tr.

(** The certificate directory with the certificate gone missing and no
    backup directory yet. *)
Definition pki_fs_missing_cert : gmap string node :=
  delete (filepath_Join DefaultCertificatesDir kubeadmconstants.APIServerCertName) pki_fs.

(** The calls of the certificate block: the determination, the backup, the
    warnings and the reissue. *)
Definition in_cert_block (c : call) : bool :=
  match c with
  | Call (CertsFromFile _) _ | Call Now _ | Call (Mkdir _ _) _ | Call (Rename _ _) _
  | Call (Printf _) _ | Call (CreateAPIServerCertAndKeyFiles _) _ => true
  | _ => false
  end.

(** The calls of [upgradeToSelfHosting]. *)
Definition in_selfhosting (c : call) : bool :=
  match c with
  | Call IsControlPlaneSelfHosted _ | Call (Println _) _
  | Call (CreateSelfHostedControlPlane _ _ _ _ _) _ => true
  | _ => false
  end.

(** ** The outcomes of a run *)

(** What a step appends for the outcome [r] of its call. *)
Definition appended (wrap : error -> error) (r : option error) : list error :=
  match r with Some e => [wrap e] | None => [] end.

(** The calls [tr] and the appended errors [new] are those of steps with the
    given outcomes, made one after the other. *)
Fixpoint in_sequence (outcomes : list (list call -> list error -> Prop))
    (tr : list call) (new : list error) : Prop :=
  match outcomes with
  | [] => tr = [] /\ new = []
  | outcome :: rest =>
      exists tr1 new1 tr2 new2,
        tr = tr1 ++ tr2 /\ new = new1 ++ new2 /\
        outcome tr1 new1 /\ in_sequence rest tr2 new2
  end.

(** A part of the orchestrator that takes [errs] and returns it with further
    errors appended, its calls and those errors being as [outcome] has them,
    whatever the collaborators answer. *)
Definition yields (outcome : list call -> list error -> Prop)
    (m : list error -> prog (list error)) : Prop :=
  forall (W : Type) (h : handler W) (w : W) (errs : list error),
  exists new : list error,
    result h (m errs) w = errs ++ new /\ outcome (trace h (m errs) w) new.

(** One call, whose failure is appended, wrapped by [wrap]. *)
Definition call_outcome (e : event (option error)) (wrap : error -> error)
    (tr : list call) (new : list error) : Prop :=
  exists r, tr = [Call e r] /\ new = appended wrap r.

(** Lines 68-82.  A dry run asks for a temporary directory: its failure is
    appended and nothing is downloaded; else the download goes there, and its
    failure is appended unless it is a "not found" one.  A real run downloads
    into the kubelet's directory and appends every failure. *)
Definition kubelet_outcome (newK8sVer : Version) (dryRun : bool)
    (tr : list call) (new : list error) : Prop :=
  if dryRun then
    (exists err,
       tr = [Call (TempDir "" "kubeadm-upgrade-dryrun") (inr err)] /\ new = [err]) \/
    (exists dir r,
       tr = [Call (TempDir "" "kubeadm-upgrade-dryrun") (inl dir);
             Call (DownloadConfig newK8sVer dir) r] /\
       new = match r with
             | Some e => if IsNotFound e then [] else [download_failure e]
             | None => []
             end)
  else
    exists r,
      tr = [Call (DownloadConfig newK8sVer "/var/lib/kubelet") r] /\
      new = appended download_failure r.

(** Line 105 and lines 178-190.  With the SelfHosting gate off nothing is
    called; with it on the self-hosted state is asked, and a control plane
    that is not self-hosted is converted, the failure being appended
    wrapped. *)
Definition selfhosting_outcome {ext : Externals} (cfg : MasterConfiguration) (dryRun : bool)
    (tr : list call) (new : list error) : Prop :=
  if Enabled (FeatureGates cfg) features.SelfHosting then
    (tr = [Call IsControlPlaneSelfHosted true] /\ new = []) \/
    (exists r,
       tr = [Call IsControlPlaneSelfHosted false;
             Call (Println "[self-hosted] Creating self-hosted control plane.") tt;
             Call (CreateSelfHostedControlPlane "/etc/kubernetes/manifests" "/etc/kubernetes" cfg
                     (if dryRun then DryRunWaiter else KubeWaiter (30 * Minute)) dryRun) r] /\
       new = appended (fun e => Errorf ("error creating self hosted control plane: " +:+ Error e)) r)
  else tr = [] /\ new = [].

(** Lines 124-129 and 211-222: the calls of a backup of the certificate
    directory and of the warning after a failed one.  The sub-directory is
    made; when that fails nothing is renamed; otherwise renames follow, which
    are the moves of the certificate and of the key when every one succeeds;
    and the warning is printed exactly when making the sub-directory or a
    rename failed. *)
Definition backup_outcome (tr : list call) : Prop :=
  exists made moves warned,
    tr = Call (Mkdir "/etc/kubernetes/pki/expired" 502%N) made :: moves ++ warned /\
    Forall (fun c => is_rename c = true) moves /\
    match made with
    | Some e =>
        moves = [] /\
        warned = [Call (Printf (backup_warning
                    (Errorf ("failed to created backup directory /etc/kubernetes/pki/expired: "
                             +:+ Error e)))) tt]
    | None =>
        match rename_errors moves with
        | [] =>
            renames moves ≡ₚ
              [("/etc/kubernetes/pki/apiserver.crt", "/etc/kubernetes/pki/expired/apiserver.crt");
               ("/etc/kubernetes/pki/apiserver.key", "/etc/kubernetes/pki/expired/apiserver.key")] /\
            warned = []
        | _ :: _ =>
            moves <> [] /\ exists e, warned = [Call (Printf (backup_warning e)) tt]
        end
    end.

(** Lines 121-135.  The certificate is loaded; a failure to load, or no
    certificate in the file, is printed and nothing is appended; else the
    clock is read, and when more than 180 days have passed since the first
    certificate's NotBefore the backup is made and the pair reissued, the
    failure of the reissue alone being appended. *)
Definition cert_outcome (cfg : MasterConfiguration) (tr : list call) (new : list error) : Prop :=
  let file := "/etc/kubernetes/pki/apiserver.crt" in
  exists loaded,
    match loaded with
    | inr err =>
        tr = [Call (CertsFromFile file) loaded;
              Call (Printf (determine_warning
                      (Errorf ("couldn't load the certificate file " +:+ file +:+ ": "
                               +:+ Error err)))) tt] /\
        new = []
    | inl [] =>
        tr = [Call (CertsFromFile file) loaded;
              Call (Printf (determine_warning (Errorf "no certificate data found"))) tt] /\
        new = []
    | inl (cert :: _) =>
        exists now,
          if expiry <? Sub now (NotBefore cert) then
            exists backup reissued,
              tr = [Call (CertsFromFile file) loaded; Call Now now] ++ backup
                   ++ [Call (CreateAPIServerCertAndKeyFiles cfg) reissued] /\
              backup_outcome backup /\
              new = appended id reissued
          else
            tr = [Call (CertsFromFile file) loaded; Call Now now] /\ new = []
    end.

(** Lines 154-176: one attempt of the DNS deployment swap and the error it
    returns.  The installed deployment is fetched; a failed fetch is the
    error; so is a deployment with no ready replica; else the stale
    deployment is deleted, and a failure of that other than "not found" is
    the error. *)
Inductive attempt_outcome (installed stale : string) : list call -> option error -> Prop :=
| attempt_unfetched (err : error) :
    attempt_outcome installed stale
      [Call (GetDeployment "kube-system" installed) (inr err)] (Some err)
| attempt_unready (d : Deployment) :
    Status_ReadyReplicas d = 0 ->
    attempt_outcome installed stale
      [Call (GetDeployment "kube-system" installed) (inl d)]
      (Some (Errorf "the DNS deployment isn't ready yet"))
| attempt_deleted (d : Deployment) (r : option error) :
    Status_ReadyReplicas d <> 0 ->
    attempt_outcome installed stale
      [Call (GetDeployment "kube-system" installed) (inl d);
       Call (DeleteDeploymentForeground "kube-system" stale) r]
      (match r with
       | Some e => if IsNotFound e then None else Some e
       | None => None
       end).

(** Modelled from the spec: the calls and the result of
    [apiclient.TryRunCommand], which is not among the sources, with up to
    [n] attempts left: an attempt that succeeds ends it with success, a
    failed last attempt ends it with that failure, and a failed attempt that
    is not the last is followed by a pause and the remaining attempts. *)
Inductive retried (attempt : list call -> option error -> Prop)
    : nat -> list call -> option error -> Prop :=
| retried_success (n : nat) (tr : list call) :
    attempt tr None -> retried attempt (S n) tr None
| retried_exhausted (tr : list call) (e : error) :
    attempt tr (Some e) -> retried attempt 1 tr (Some e)
| retried_again (n : nat) (tr : list call) (e : error) (tr' : list call) (r : option error) :
    attempt tr (Some e) -> retried attempt (S n) tr' r ->
    retried attempt (S (S n)) (tr ++ Call Pause tt :: tr') r.

(** The DNS deployment swap with the given names, tried up to ten times; its
    error, if any, is appended. *)
Definition swap_outcome (installed stale : string) (tr : list call) (new : list error) : Prop :=
  exists r, retried (attempt_outcome installed stale) 10 tr r /\ new = appended id r.

(** Lines 142-146.  A dry run leaves the DNS deployments alone; a real run
    swaps them: CoreDNS installed and kube-dns stale when the CoreDNS gate is
    on, the reverse otherwise. *)
Definition dns_outcome {ext : Externals} (cfg : MasterConfiguration) (dryRun : bool)
    (tr : list call) (new : list error) : Prop :=
  if dryRun then tr = [] /\ new = []
  else if Enabled (FeatureGates cfg) features.CoreDNS
       then swap_outcome "coredns" "kube-dns" tr new
       else swap_outcome "kube-dns" "coredns" tr new.

(** The steps of a run of [PerformPostUpgradeTasks], in source order, with
    the calls each makes and the errors each appends. *)
Definition run_outcome {ext : Externals} (cfg : MasterConfiguration) (newK8sVer : Version)
    (dryRun : bool) : list call -> list error -> Prop :=
  in_sequence
    [ call_outcome (UploadConfiguration cfg) id;
      call_outcome (CreateConfigMap cfg)
        (fun e => Errorf ("error creating kubelet configuration ConfigMap: " +:+ Error e));
      kubelet_outcome newK8sVer dryRun;
      call_outcome (AnnotateCRISocket (NodeRegistration_Name cfg) (NodeRegistration_CRISocket cfg))
        (fun e => Errorf ("error uploading crisocket: " +:+ Error e));
      call_outcome AllowBootstrapTokensToPostCSRs id;
      call_outcome AutoApproveNodeBootstrapTokens id;
      call_outcome AutoApproveNodeCertificateRotation id;
      selfhosting_outcome cfg dryRun;
      call_outcome CreateClusterInfoRBACRules id;
      cert_outcome cfg;
      call_outcome (EnsureDNSAddon cfg) id;
      dns_outcome cfg dryRun;
      call_outcome (EnsureProxyAddon cfg) id ].

(** * Properties *)

(** ** Strings and aggregate descriptions *)

Lemma string_app_cons (ch : Ascii.ascii) (a b : string) :
  String ch a +:+ b = String ch (a +:+ b).
Proof. reflexivity. Qed.

Lemma string_app_assoc (a b c : string) : (a +:+ b) +:+ c = a +:+ (b +:+ c).
Proof.
  induction a as [|ch a IH]; [reflexivity |].
  by rewrite !string_app_cons, IH.
Qed.

Lemma string_app_nil_r (a : string) : a +:+ "" = a.
Proof.
  induction a as [|ch a IH]; [reflexivity |].
  by rewrite string_app_cons, IH.
Qed.

Lemma string_app_length (a b : string) :
  String.length (a +:+ b) = (String.length a + String.length b)%nat.
Proof.
  induction a as [|ch a IH]; [reflexivity |].
  rewrite string_app_cons. simpl. by rewrite IH.
Qed.

Lemma mentions_after (ms : list string) (before text : string) :
  mentions_in_order ms text -> mentions_in_order ms (before +:+ text).
Proof.
  intros Hm. destruct Hm as [text | m ms b rest Hrest].
  - constructor.
  - rewrite <- string_app_assoc. by constructor.
Qed.

Lemma mentions_join (sep : string) (msgs : list string) (tail : string) :
  mentions_in_order msgs (join_msgs sep msgs +:+ tail).
Proof.
  induction msgs as [|m rest IH]; [constructor |].
  destruct rest as [|m' rest].
  - simpl. apply (mentions_cons m [] "" tail). constructor.
  - change (join_msgs sep (m :: m' :: rest))
      with (m +:+ sep +:+ join_msgs sep (m' :: rest)).
    rewrite !string_app_assoc.
    apply (mentions_cons m (m' :: rest) ""). by apply mentions_after.
Qed.

Lemma mentions_aggregate (errs : list error) :
  mentions_in_order (Error <$> errs) (AggregateError errs).
Proof.
  destruct errs as [|e [|e' errs]]; [constructor | |].
  - simpl. rewrite <- (string_app_nil_r (Error e)) at 2.
    apply (mentions_cons (Error e) [] "" ""). constructor.
  - unfold AggregateError. apply mentions_after, mentions_join.
Qed.

Lemma NewAggregate_nil_iff (errs : list error) : NewAggregate errs = None <-> errs = [].
Proof. destruct errs; simpl; split; congruence. Qed.

Lemma NewAggregate_mentions (errs : list error) (agg : error) :
  NewAggregate errs = Some agg -> mentions_in_order (Error <$> errs) (Error agg).
Proof.
  destruct errs as [|e errs]; [discriminate |].
  intros [= <-]. apply mentions_aggregate.
Qed.

(** ** Running programs *)

Section Runs.
Context {W : Type} (h : handler W).

Lemma run_bind {A B : Type} (m : prog A) (f : A -> prog B) (w : W) :
  run h (m ≫= f) w =
  ((run h (f (run h m w).1.1) (run h m w).1.2).1.1,
   (run h (f (run h m w).1.1) (run h m w).1.2).1.2,
   (run h m w).2 ++ (run h (f (run h m w).1.1) (run h m w).1.2).2).
Proof.
  revert w. induction m as [a | X e k IH]; intros w.
  - simpl. by destruct (run h (f a) w) as [[b w'] tr].
  - change (Vis e k ≫= f) with (Vis e (fun x => k x ≫= f)).
    simpl. destruct (h X e w) as [x w1]. rewrite IH.
    destruct (run h (k x) w1) as [[a w2] tr]. simpl.
    by destruct (run h (f a) w2) as [[b w3] tr'].
Qed.

Lemma result_bind {A B : Type} (m : prog A) (f : A -> prog B) (w : W) :
  result h (m ≫= f) w = result h (f (result h m w)) (world h m w).
Proof. unfold result, world. by rewrite run_bind. Qed.

Lemma world_bind {A B : Type} (m : prog A) (f : A -> prog B) (w : W) :
  world h (m ≫= f) w = world h (f (result h m w)) (world h m w).
Proof. unfold result, world. by rewrite run_bind. Qed.

Lemma trace_bind {A B : Type} (m : prog A) (f : A -> prog B) (w : W) :
  trace h (m ≫= f) w = trace h m w ++ trace h (f (result h m w)) (world h m w).
Proof. unfold result, world, trace. by rewrite run_bind. Qed.

Lemma result_ret {A : Type} (a : A) (w : W) : result h (mret a) w = a.
Proof. reflexivity. Qed.

Lemma world_ret {A : Type} (a : A) (w : W) : world h (mret a) w = w.
Proof. reflexivity. Qed.

Lemma trace_ret {A : Type} (a : A) (w : W) : trace h (mret a) w = [].
Proof. reflexivity. Qed.

Lemma result_trigger {X : Type} (e : event X) (w : W) : result h (trigger e) w = (h X e w).1.
Proof. unfold result. simpl. by destruct (h X e w). Qed.

Lemma world_trigger {X : Type} (e : event X) (w : W) : world h (trigger e) w = (h X e w).2.
Proof. unfold world. simpl. by destruct (h X e w). Qed.

Lemma trace_trigger {X : Type} (e : event X) (w : W) :
  trace h (trigger e) w = [Call e (h X e w).1].
Proof. unfold trace. simpl. by destruct (h X e w). Qed.

End Runs.

Ltac step_run :=
  repeat first
    [ rewrite result_bind | rewrite world_bind | rewrite trace_bind
    | rewrite result_ret | rewrite world_ret | rewrite trace_ret
    | rewrite result_trigger | rewrite world_trigger | rewrite trace_trigger ];
  cbn [fst snd].

(** ** Steps that only append *)

Lemma call_name_result {X : Type} (e : event X) (x y : X) :
  call_name (Call e x) = call_name (Call e y).
Proof. by destruct e. Qed.

Lemma appends_only_chain (names : list (list string)) (steps : list step) :
  Forall2 (fun n s => appends_only n (step_prog s)) names steps ->
  appends_only (concat names) (chain steps).
Proof.
  induction 1 as [|n s names steps Hs _ IH]; intros W h w errs.
  - exists []. cbn. by rewrite app_nil_r.
  - destruct (Hs W h w errs) as (new1 & Hr1 & Hf1 & Hn1 & Hq1).
    revert Hr1 Hf1 Hn1 Hq1. unfold step_prog. cbn [chain concat]. step_run.
    rewrite app_nil_r. intros Hr1 Hf1 Hn1 Hq1.
    destruct (IH W h (world h (step_body s errs) w)
                (step_update s errs (result h (step_body s errs) w)))
      as (new2 & Hr2 & Hf2 & Hn2 & Hq2).
    exists (new1 ++ new2). rewrite Hr2, omap_app, fmap_app.
    split; [by rewrite Hr1, app_assoc |].
    split; [by apply sublist_app |]. split; [by apply sublist_app |].
    intros [Hok1 Hok2]%Forall_app. by rewrite Hq1, Hq2.
Qed.

Lemma appends_only_call (e : event (option error)) (wrap : error -> error) :
  (forall err, step_failure (Call e err) = wrap <$> err) ->
  (forall err, is_backup_call (Call e err) || call_ok (Call e err) = true -> err = None) ->
  appends_only [call_name (Call e None)] (step_prog (call_step e wrap)).
Proof.
  intros Hfail Hok W h w errs. unfold step_prog, call_step. cbn [step_body step_update]. step_run.
  destruct (h _ e w) as [err w1]. rewrite app_nil_r.
  cbn [fst snd omap list_omap fmap list_fmap]. rewrite Hfail.
  rewrite (call_name_result e err None).
  exists (match err with Some e' => [wrap e'] | None => [] end).
  split; [destruct err; [done | by rewrite app_nil_r] |].
  split; [by destruct err |]. split; [done |].
  intros Hall%Forall_cons_1. by rewrite (Hok err (proj1 Hall)).
Qed.

Lemma appends_only_block (names : list string) (m : list error -> prog (list error)) :
  appends_only names m -> appends_only names (step_prog (block_step m)).
Proof.
  intros Hm W h w errs. destruct (Hm W h w errs) as (new & Hr & Hrest).
  exists new. unfold step_prog, block_step. cbn [step_body step_update]. step_run.
  by rewrite app_nil_r.
Qed.

(** ** Properties of every call of a program *)

Lemma trace_all_ret {A : Type} (P : call -> Prop) (a : A) : trace_all P (mret a).
Proof. intros W h w. constructor. Qed.

Lemma trace_all_trigger {X : Type} (P : call -> Prop) (e : event X) :
  (forall x, P (Call e x)) -> trace_all P (trigger e).
Proof. intros HP W h w. step_run. by constructor. Qed.

Lemma trace_all_bind {A B : Type} (P : call -> Prop) (m : prog A) (f : A -> prog B) :
  trace_all P m -> (forall a, trace_all P (f a)) -> trace_all P (m ≫= f).
Proof.
  intros Hm Hf W h w. step_run. apply Forall_app. split; [apply Hm | apply Hf].
Qed.

Lemma omap_none {A B : Type} (f : A -> option B) (l : list A) :
  Forall (fun a => f a = None) l -> omap f l = [].
Proof. induction 1 as [|a l Ha _ IH]; [done |]. cbn. by rewrite Ha. Qed.

(** ** Moving files *)

Lemma recorded_entries (moved : list (string * string)) (acc : gmap string string) :
  NoDup moved.*2 ->
  (forall p, p ∈ moved -> acc !! p.2 = None) ->
  map_to_list (recorded moved acc) ≡ₚ (reversal <$> moved) ++ map_to_list acc.
Proof.
  revert acc. induction moved as [|p moved IH]; intros acc Hnd Hfresh; [done |].
  apply NoDup_cons in Hnd as [Hp Hnd]. simpl.
  rewrite IH; [| done |].
  - rewrite map_to_list_insert by (apply Hfresh; left).
    by rewrite <- Permutation_middle.
  - intros q Hq. rewrite lookup_insert_ne; [apply Hfresh; by right |].
    intros Heq. apply Hp. rewrite Heq. by apply list_elem_of_fmap_2.
Qed.

Section Moves.
Context {ext : Externals} {W : Type} (h : handler W).

Lemma rollbackFiles_loop_run (todo : list (string * string)) (errs : list error) (w : W) :
  Forall (fun c => is_rename c = true) (trace h (rollbackFiles_loop todo errs) w) /\
  renames (trace h (rollbackFiles_loop todo errs) w) = todo /\
  result h (rollbackFiles_loop todo errs) w
    = errs ++ rename_errors (trace h (rollbackFiles_loop todo errs) w).
Proof.
  revert errs w. induction todo as [|[from to] todo IH]; intros errs w.
  - cbn. by rewrite app_nil_r.
  - cbn [rollbackFiles_loop]. step_run.
    destruct (h _ (Rename from to) w) as [err w1]; cbn [fst snd].
    destruct (IH (appendErr errs err) w1) as (Hall & Hren & Hres).
    split; [by constructor |]. split.
    + cbn. by rewrite <- Hren at 2.
    + rewrite Hres. destruct err as [e|]; cbn; [| done].
      unfold append. by rewrite <- app_assoc.
Qed.

Lemma rollbackFiles_run (files : gmap string string) (originalErr : error) (w : W) :
  Forall (fun c => is_rename c = true) (trace h (rollbackFiles files originalErr) w) /\
  renames (trace h (rollbackFiles files originalErr) w) = range files /\
  exists err : error,
    result h (rollbackFiles files originalErr) w = Some err /\
    mentions_in_order
      (Error originalErr :: (Error <$> rename_errors (trace h (rollbackFiles files originalErr) w)))
      (Error err).
Proof.
  unfold rollbackFiles. step_run. rewrite app_nil_r.
  destruct (rollbackFiles_loop_run (range files) [originalErr] w) as (Hall & Hren & Hres).
  split; [done |]. split; [done |].
  eexists. split; [reflexivity |]. rewrite Hres. cbn [app NewAggregate Sprint_error Errorf Error].
  do 3 apply mentions_after.
  apply (mentions_aggregate (originalErr :: _)).
Qed.

Lemma moveFiles_loop_run (todo : list (string * string)) (acc : gmap string string) (w : W) :
  (result h (moveFiles_loop todo acc) w = None /\
   trace h (moveFiles_loop todo acc) w = renamed_ok todo) \/
  (exists moved from to e0 rest w',
     todo = moved ++ (from, to) :: rest /\
     trace h (moveFiles_loop todo acc) w
       = renamed_ok moved ++ Call (Rename from to) (Some e0)
           :: trace h (rollbackFiles (recorded moved acc) e0) w' /\
     result h (moveFiles_loop todo acc) w
       = result h (rollbackFiles (recorded moved acc) e0) w').
Proof.
  revert acc w. induction todo as [|[from to] todo IH]; intros acc w; [by left |].
  cbn [moveFiles_loop]. step_run.
  destruct (h _ (Rename from to) w) as [[e0|] w1]; cbn [fst snd].
  - right. by exists [], from, to, e0, todo, w1.
  - destruct (IH (<[to := from]> acc) w1) as [[Hres Htr] | Hfail].
    + left. split; [done |]. by rewrite Htr.
    + destruct Hfail as (moved & from' & to' & e0 & rest & w' & -> & Htr & Hres).
      right. exists ((from, to) :: moved), from', to', e0, rest, w'.
      split; [done |]. split; [by rewrite Htr | done].
Qed.

End Moves.

Lemma renamed_ok_all_ok (pairs : list (string * string)) :
  Forall (fun c => call_ok c = true) (renamed_ok pairs).
Proof. unfold renamed_ok. by apply Forall_fmap, Forall_true. Qed.

Lemma renamed_ok_all_rename (pairs : list (string * string)) :
  Forall (fun c => is_rename c = true) (renamed_ok pairs).
Proof. unfold renamed_ok. by apply Forall_fmap, Forall_true. Qed.

Lemma rename_errors_cons (oldpath newpath : string) (r : option error) (tr : list call) :
  rename_errors (Call (Rename oldpath newpath) r :: tr)
    = match r with Some e => e :: rename_errors tr | None => rename_errors tr end.
Proof. by destruct r. Qed.

Lemma rename_errors_app (l1 l2 : list call) :
  rename_errors (l1 ++ l2) = rename_errors l1 ++ rename_errors l2.
Proof. apply omap_app. Qed.

Lemma rename_errors_renamed_ok (pairs : list (string * string)) :
  rename_errors (renamed_ok pairs) = [].
Proof. induction pairs as [|p pairs IH]; [done | exact IH]. Qed.

(** C3. [moveFiles] on a set of moves with pairwise distinct destinations:
    it returns nil exactly when every rename it made succeeded, and then it
    renamed every pair; otherwise the renames before the first failing one
    succeeded, the failing one is followed by exactly one rename of
    destination back to source for each of them, and the returned error
    mentions the original failure and then every failure of such a reversal. *)
Theorem moveFiles_rolls_back {ext : Externals} {W : Type} (h : handler W) (w : W)
    (files : gmap string string) :
  NoDup (map_to_list files).*2 ->
  let tr := trace h (moveFiles files) w in
  let res := result h (moveFiles files) w in
  (res = None <-> Forall (fun c => call_ok c = true) tr) /\
  ((res = None /\ tr = renamed_ok (range files)) \/
   (exists moved from to e0 rest back err,
      range files = moved ++ (from, to) :: rest /\
      tr = renamed_ok moved ++ Call (Rename from to) (Some e0) :: back /\
      Forall (fun c => is_rename c = true) back /\
      renames back ≡ₚ reversal <$> moved /\
      res = Some err /\
      mentions_in_order (Error e0 :: (Error <$> rename_errors back)) (Error err))).
Proof.
  intros Hnd tr res. subst tr res. unfold moveFiles.
  destruct (moveFiles_loop_run h (range files) ∅ w) as [[Hres Htr] | Hfail].
  - split; [| by left]. rewrite Hres, Htr. split; [intros _; apply renamed_ok_all_ok | done].
  - destruct Hfail as (moved & from & to & e0 & rest & w' & Hsplit & Htr & Hres).
    destruct (rollbackFiles_run h (recorded moved ∅) e0 w') as (Hall & Hren & err & Herr & Hment).
    rewrite Hres, Htr, Herr. split.
    + split; [done |]. intros Hok. apply Forall_app in Hok as [_ Hok].
      apply Forall_cons in Hok as [Hok _]. discriminate Hok.
    + right.
      exists moved, from, to, e0, rest, (trace h (rollbackFiles (recorded moved ∅) e0) w'), err.
      repeat split; try done.
      rewrite Hren, range_perm, recorded_entries, map_to_list_empty, app_nil_r; [done | | done].
      rewrite <- (range_perm files), Hsplit, fmap_app in Hnd.
      by apply NoDup_app in Hnd as [Hnd _].
Qed.

(** ** Certificate age *)

Lemma expiry_days : expiry = 180 * day.
Proof. reflexivity. Qed.

Lemma Sub_exceeds (t u : Time) (d : Duration) :
  minDuration <= d < maxDuration -> ((d <? Sub t u) = true <-> d < t - u).
Proof.
  unfold Sub, minDuration, maxDuration. intros Hd. rewrite Z.ltb_lt.
  destruct (t - u <? - 2 ^ 63) eqn:Hlo.
  { apply Z.ltb_lt in Hlo. change (2 ^ 63) with 9223372036854775808 in *. lia. }
  apply Z.ltb_ge in Hlo.
  destruct (2 ^ 63 - 1 <? t - u) eqn:Hhi; [apply Z.ltb_lt in Hhi |];
    change (2 ^ 63) with 9223372036854775808 in *; lia.
Qed.

(** C4. [shouldBackupAPIServerCertAndKey] fails when the certificate file
    cannot be loaded or holds no certificate; otherwise it answers true
    exactly when more than 180 days lie between the NotBefore of the first
    certificate and the current time: true at 181 days, false at 179. *)
Theorem shouldBackup_by_age {W : Type} (h : handler W) (w : W) (certAndKeyDir : string) :
  let file := filepath_Join certAndKeyDir kubeadmconstants.APIServerCertName in
  let load := h _ (CertsFromFile file) w in
  let res := result h (shouldBackupAPIServerCertAndKey certAndKeyDir) w in
  match load.1 with
  | inr err => exists e, res = inr e
  | inl [] => exists e, res = inr e
  | inl (cert :: _) =>
      let now := (h _ Now load.2).1 in
      (res = inl true <-> 180 * day < now - NotBefore cert) /\
      (res = inl false <-> now - NotBefore cert <= 180 * day) /\
      (NotBefore cert = now - 181 * day -> res = inl true) /\
      (NotBefore cert = now - 179 * day -> res = inl false)
  end.
Proof.
  intros file load res. subst res load. unfold shouldBackupAPIServerCertAndKey.
  fold file. step_run.
  destruct (h _ (CertsFromFile file) w) as [[[|cert certs] | err] w1]; cbn [fst snd].
  - eexists. reflexivity.
  - step_run. destruct (h _ Now w1) as [now w2]; cbn [fst snd].
    assert (Hage : (expiry <? Sub now (NotBefore cert)) = true <-> 180 * day < now - NotBefore cert).
    { rewrite Sub_exceeds; [by rewrite expiry_days |]. by vm_compute. }
    unfold day, Hour, Minute, Second, Nanosecond in *.
    destruct (expiry <? Sub now (NotBefore cert)) eqn:Hlt; step_run.
    + assert (180 * (24 * (60 * (60 * (1000000000 * 1)))) < now - NotBefore cert) by by apply Hage.
      split; [done |]. split; [split; [discriminate | lia] |].
      split; [done |]. intros Heq. rewrite Heq in *. lia.
    + assert (~ 180 * (24 * (60 * (60 * (1000000000 * 1)))) < now - NotBefore cert)
        by (intros Hc; apply Hage in Hc; discriminate).
      split; [split; [discriminate | lia] |]. split; [split; [lia | done] |].
      split; [| done]. intros Heq. rewrite Heq in *. lia.
  - eexists. reflexivity.
Qed.

(** ** DNS deployment swap *)

(** C6. The closure takes the installed and the stale deployment name from
    the two constants: CoreDNS installed and KubeDNS stale when the CoreDNS
    gate is enabled, the reverse otherwise; the two differ; and an attempt
    fetches the installed one and deletes nothing but the stale one. *)
Theorem dns_names_are_the_two_constants {ext : Externals} {W : Type} (h : handler W) (w : W)
    (cfg : MasterConfiguration) :
  let installed := (dnsDeploymentNames cfg).1 in
  let stale := (dnsDeploymentNames cfg).2 in
  let tr := trace h (removeOldDNSDeployment_attempt cfg) w in
  (installed, stale) =
    (if Enabled (FeatureGates cfg) features.CoreDNS
     then (kubeadmconstants.CoreDNS, kubeadmconstants.KubeDNS)
     else (kubeadmconstants.KubeDNS, kubeadmconstants.CoreDNS)) /\
  installed <> stale /\
  exists fetched deleted,
    tr = [Call (GetDeployment NamespaceSystem installed) fetched] \/
    tr = [Call (GetDeployment NamespaceSystem installed) fetched;
          Call (DeleteDeploymentForeground NamespaceSystem stale) deleted].
Proof.
  intros installed stale tr. subst installed stale tr.
  unfold removeOldDNSDeployment_attempt.
  destruct (dnsDeploymentNames cfg) as [installed stale] eqn:Hnames. cbn [fst snd].
  split; [| split].
  - rewrite <- Hnames. unfold dnsDeploymentNames. by destruct (Enabled _ _).
  - unfold dnsDeploymentNames in Hnames. by destruct (Enabled _ _); injection Hnames as <- <-.
  - step_run.
    destruct (h _ (GetDeployment NamespaceSystem installed) w) as [[d | err] w1]; cbn [fst snd].
    + destruct (Status_ReadyReplicas d =? 0); step_run.
      * exists (inl d), None. by left.
      * destruct (h _ (DeleteDeploymentForeground NamespaceSystem stale) w1) as [del w2].
        cbn [fst snd]. exists (inl d), del. right.
        by destruct del as [e|]; [destruct (negb (IsNotFound e)) |].
    + exists (inr err), None. by left.
Qed.

(** C5. One attempt of the DNS swap, for a fetch that reports a count of
    ready replicas (never negative): a failed fetch fails the attempt with
    that failure and no deletion is issued; with no ready replica the attempt
    fails and no deletion is issued; with at least one, the foreground
    deletion of the stale deployment follows the fetch, and the attempt
    succeeds when the deletion succeeds or reports "not found" and fails with
    the deletion's failure otherwise.  So a deletion in the trace comes right
    after a successful fetch that showed at least one ready replica. *)
Theorem dns_swap_deletes_only_when_ready {ext : Externals} {W : Type} (h : handler W) (w : W)
    (cfg : MasterConfiguration) :
  let installed := (dnsDeploymentNames cfg).1 in
  let stale := (dnsDeploymentNames cfg).2 in
  let fetch := h _ (GetDeployment NamespaceSystem installed) w in
  let tr := trace h (removeOldDNSDeployment_attempt cfg) w in
  let res := result h (removeOldDNSDeployment_attempt cfg) w in
  (forall d, fetch.1 = inl d -> 0 <= Status_ReadyReplicas d) ->
  match fetch.1 with
  | inr err =>
      tr = [Call (GetDeployment NamespaceSystem installed) (inr err)] /\ res = Some err
  | inl d =>
      if Status_ReadyReplicas d <? 1 then
        tr = [Call (GetDeployment NamespaceSystem installed) (inl d)] /\
        res = Some (Errorf "the DNS deployment isn't ready yet")
      else
        let deleted := (h _ (DeleteDeploymentForeground NamespaceSystem stale) fetch.2).1 in
        tr = [Call (GetDeployment NamespaceSystem installed) (inl d);
              Call (DeleteDeploymentForeground NamespaceSystem stale) deleted] /\
        res = match deleted with
              | None => None
              | Some e => if IsNotFound e then None else Some e
              end
  end /\
  (forall before c after,
     tr = before ++ c :: after -> is_delete c = true ->
     exists d, before = [Call (GetDeployment NamespaceSystem installed) (inl d)] /\
               1 <= Status_ReadyReplicas d).
Proof.
  intros installed stale fetch tr res Hcount. subst tr res.
  unfold removeOldDNSDeployment_attempt.
  rewrite (surjective_pairing (dnsDeploymentNames cfg)). fold installed stale.
  step_run. fold fetch. destruct fetch as [[d | err] w1]; cbn [fst snd] in *.
  - specialize (Hcount d eq_refl).
    destruct (Z.eqb_spec (Status_ReadyReplicas d) 0) as [Hz | Hnz]; step_run.
    + rewrite Hz. cbn. split; [done |].
      intros [|c' before] c after [= <- Hnil] Hdel; [discriminate |].
      by destruct before.
    + destruct (Z.ltb_spec (Status_ReadyReplicas d) 1) as [Hlt | Hge]; [lia |].
      destruct (h _ (DeleteDeploymentForeground NamespaceSystem stale) w1) as [del w2].
      cbn [fst snd]. split.
      * by destruct del as [e|]; [destruct (IsNotFound e) |].
      * intros before c after Heq Hdel. exists d. split; [| done].
        destruct del as [e|]; [destruct (IsNotFound e) |]; cbn in Heq;
          (destruct before as [|c1 [|c2 before]];
           [ injection Heq as <- _; discriminate Hdel
           | by injection Heq as <- _
           | injection Heq as _ _ Hnil; by destruct before ]).
  - split; [done |].
    intros [|c' before] c after [= <- Hnil] Hdel; [discriminate |].
    by destruct before.
Qed.

(** ** What the parts of the orchestrator call *)

Ltac trace_all_step :=
  lazymatch goal with
  | |- trace_all _ (mret _) => apply trace_all_ret
  | |- trace_all _ (trigger _) => apply trace_all_trigger; intros; try done
  | |- trace_all _ (_ ≫= _) => apply trace_all_bind; [| intros]
  | |- trace_all _ (match ?x with _ => _ end) => destruct x
  end.

Section Calls.
Context {ext : Externals} (P : call -> Prop).

Lemma trace_all_rollbackFiles (files : gmap string string) (originalErr : error) :
  (forall o n r, P (Call (Rename o n) r)) -> trace_all P (rollbackFiles files originalErr).
Proof.
  intros HP. unfold rollbackFiles. apply trace_all_bind; [| intros; apply trace_all_ret].
  generalize [originalErr]. induction (range files) as [|[from to] todo IH]; intros errs.
  - apply trace_all_ret.
  - cbn [rollbackFiles_loop]. apply trace_all_bind; [by apply trace_all_trigger | intros; apply IH].
Qed.

Lemma trace_all_moveFiles (files : gmap string string) :
  (forall o n r, P (Call (Rename o n) r)) -> trace_all P (moveFiles files).
Proof.
  intros HP. unfold moveFiles. generalize (∅ : gmap string string).
  induction (range files) as [|[from to] todo IH]; intros acc.
  - apply trace_all_ret.
  - cbn [moveFiles_loop]. apply trace_all_bind; [by apply trace_all_trigger |].
    intros [e|]; [by apply trace_all_rollbackFiles | apply IH].
Qed.

Lemma trace_all_backup (certAndKeyDir : string) :
  (forall n p r, P (Call (Mkdir n p) r)) ->
  (forall o n r, P (Call (Rename o n) r)) ->
  trace_all P (backupAPIServerCertAndKey certAndKeyDir).
Proof.
  intros HM HR. unfold backupAPIServerCertAndKey.
  apply trace_all_bind; [by apply trace_all_trigger |].
  intros [e|]; [apply trace_all_ret | by apply trace_all_moveFiles].
Qed.

Lemma trace_all_shouldBackup (certAndKeyDir : string) :
  (forall f r, P (Call (CertsFromFile f) r)) ->
  (forall t, P (Call Now t)) ->
  trace_all P (shouldBackupAPIServerCertAndKey certAndKeyDir).
Proof.
  intros HC HN. unfold shouldBackupAPIServerCertAndKey. repeat trace_all_step.
Qed.

Lemma trace_all_attempt (cfg : MasterConfiguration) :
  (forall ns n r, P (Call (GetDeployment ns n) r)) ->
  (forall ns n r, P (Call (DeleteDeploymentForeground ns n) r)) ->
  trace_all P (removeOldDNSDeployment_attempt cfg).
Proof.
  intros HG HD. unfold removeOldDNSDeployment_attempt.
  destruct (dnsDeploymentNames cfg). repeat trace_all_step.
Qed.

Lemma trace_all_TryRunCommand (f : prog (option error)) (failureThreshold : nat) :
  trace_all P f -> (forall u, P (Call Pause u)) ->
  trace_all P (TryRunCommand f failureThreshold).
Proof.
  intros Hf HP. unfold TryRunCommand. generalize (None : option error).
  induction failureThreshold as [|n IH]; intros last; [apply trace_all_ret |].
  cbn [TryRunCommand_from]. apply trace_all_bind; [done |].
  intros [e|]; [| apply trace_all_ret].
  destruct n; [apply trace_all_ret |].
  apply trace_all_bind; [by apply trace_all_trigger | intros; apply IH].
Qed.

Lemma trace_all_upgradeToSelfHosting (cfg : MasterConfiguration) (dryRun : bool) :
  (forall b, P (Call IsControlPlaneSelfHosted b)) ->
  (forall t u, P (Call (Println t) u)) ->
  (forall m k c wt d r, P (Call (CreateSelfHostedControlPlane m k c wt d) r)) ->
  trace_all P (upgradeToSelfHosting cfg dryRun).
Proof.
  intros HI HP HC. unfold upgradeToSelfHosting. repeat trace_all_step.
Qed.

End Calls.

(** ** The steps of the orchestrator append only *)

Lemma appends_none (errs : list error) (Q : list error -> Prop) :
  Q [] -> exists new, errs = errs ++ new /\ Q new.
Proof. intros HQ. exists []. by rewrite app_nil_r. Qed.

Lemma appends_one (errs : list error) (x : error) (Q : list error -> Prop) :
  Q [x] -> exists new, append errs x = errs ++ new /\ Q new.
Proof. intros HQ. by exists [x]. Qed.

Lemma appends_option (errs : list error) (err : option error) (Q : list error -> Prop) :
  Q (match err with Some e => [e] | None => [] end) ->
  exists new, appendErr errs err = errs ++ new /\ Q new.
Proof. destruct err; [apply appends_one | apply appends_none]. Qed.

Ltac forall_calls :=
  repeat match goal with
         | H : Forall _ (_ ++ _) |- _ => apply Forall_app in H as [? ?]
         | H : Forall _ (_ :: _) |- _ => apply Forall_cons_1 in H as [? ?]
         | H : Forall _ [] |- _ => clear H
         end.

Ltac finish_appends :=
  first [apply appends_none | apply appends_one | apply appends_option];
  rewrite ?app_nil_r; cbn;
  split; [eauto 6 using sublist_nil, sublist_skip, sublist_cons |];
  split; [eauto 6 using sublist_nil, sublist_skip, sublist_cons |];
  let H := fresh "Hall" in intros H; forall_calls; try done.

Section Steps.
Context {ext : Externals}.

Lemma appends_only_kubelet (newK8sVer : Version) (dryRun : bool) :
  appends_only [] (kubeletConfigSteps newK8sVer dryRun).
Proof.
  intros W h w errs. unfold kubeletConfigSteps, getKubeletDir. destruct dryRun; step_run.
  - destruct (h _ (TempDir "" "kubeadm-upgrade-dryrun") w) as [[dir | err] w1]; cbn [fst snd]; step_run.
    + destruct (h _ (DownloadConfig newK8sVer dir) w1) as [[e|] w2]; cbn [fst snd];
        [destruct (IsNotFound e); cbn [negb andb] |]; step_run; finish_appends.
    + finish_appends.
  - destruct (h _ (DownloadConfig newK8sVer kubeadmconstants.KubeletRunDirectory) w) as [[e|] w2];
      cbn [fst snd]; rewrite ?andb_false_r; cbn [negb]; step_run; finish_appends.
Qed.

Lemma appends_only_selfHosting (cfg : MasterConfiguration) (dryRun : bool) :
  appends_only [] (step_prog (func_step (upgradeToSelfHosting cfg dryRun))).
Proof.
  intros W h w errs. unfold step_prog, func_step, upgradeToSelfHosting.
  cbn [step_body step_update].
  destruct (Enabled (FeatureGates cfg) features.SelfHosting); step_run; [| finish_appends].
  destruct (h _ IsControlPlaneSelfHosted w) as [[|] w1]; cbn [fst snd negb]; step_run;
    [finish_appends |].
  destruct (h _ (Println _) w1) as [[] w2]; cbn [fst snd].
  destruct (h _ (CreateSelfHostedControlPlane _ _ _ _ _) w2) as [[e|] w3]; cbn [fst snd];
    step_run; finish_appends.
Qed.

Lemma appends_only_certBackup (cfg : MasterConfiguration) :
  appends_only ["certutil.CertsFromFile"] (certBackupSteps cfg).
Proof.
  intros W h w errs. unfold certBackupSteps, shouldBackupAPIServerCertAndKey. step_run.
  destruct (h _ (CertsFromFile _) w) as [[[|cert certs] | err] w1]; cbn [fst snd]; step_run.
  - destruct (h _ (Printf _) w1) as [[] w2]; cbn [fst snd]. finish_appends.
  - destruct (h _ Now w1) as [now w2]; cbn [fst snd].
    destruct (expiry <? Sub now (NotBefore cert)); step_run; [| finish_appends].
    pose proof (trace_all_backup (fun c => step_failure c = None) DefaultCertificatesDir
                  (fun _ _ _ => eq_refl) (fun _ _ _ => eq_refl) W h w2) as Hquiet.
    set (tb := trace h (backupAPIServerCertAndKey DefaultCertificatesDir) w2) in *.
    set (wb := world h (backupAPIServerCertAndKey DefaultCertificatesDir) w2).
    set (printed := trace h _ wb). set (wp := world h _ wb).
    assert (Hprinted : Forall (fun c => step_failure c = None) printed).
    { subst printed. destruct (result h (backupAPIServerCertAndKey DefaultCertificatesDir) w2);
        step_run; by repeat constructor. }
    destruct (h _ (CreateAPIServerCertAndKeyFiles cfg) wp) as [err w3]; cbn [fst snd].
    apply appends_option. rewrite !app_nil_r, !omap_app, !fmap_app.
    rewrite (omap_none _ tb Hquiet), (omap_none _ printed Hprinted). cbn.
    split; [by destruct err |]. split; [apply sublist_skip, sublist_nil_l |].
    intros Hall. forall_calls. by destruct err.
  - destruct (h _ (Printf _) w1) as [[] w2]; cbn [fst snd]. finish_appends.
Qed.

Lemma attempt_ok {W : Type} (h : handler W) (w : W) (cfg : MasterConfiguration) :
  Forall (fun c => is_backup_call c || call_ok c = true)
    (trace h (removeOldDNSDeployment_attempt cfg) w) ->
  result h (removeOldDNSDeployment_attempt cfg) w = None.
Proof.
  unfold removeOldDNSDeployment_attempt. destruct (dnsDeploymentNames cfg) as [installed stale].
  step_run. destruct (h _ (GetDeployment _ _) w) as [[d | err] w1]; cbn [fst snd].
  - destruct (Status_ReadyReplicas d =? 0) eqn:Hready; step_run.
    + intros Hall. forall_calls. cbn in *. by rewrite Hready in *.
    + destruct (h _ (DeleteDeploymentForeground _ _) w1) as [[e|] w2]; cbn [fst snd]; [| done].
      intros Hall. forall_calls. done.
  - intros Hall. forall_calls. done.
Qed.

Lemma TryRunCommand_ok {W : Type} (h : handler W) (f : prog (option error)) (n : nat) :
  (forall w, Forall (fun c => is_backup_call c || call_ok c = true) (trace h f w) ->
             result h f w = None) ->
  forall (w : W) (last : option error),
  Forall (fun c => is_backup_call c || call_ok c = true) (trace h (TryRunCommand_from f n last) w) ->
  result h (TryRunCommand_from f n last) w = match n with O => last | S _ => None end.
Proof.
  intros Hf. induction n as [|n IH]; intros w last; [done |].
  cbn [TryRunCommand_from]. step_run. intros [Hok Hrest]%Forall_app.
  revert Hrest. rewrite (Hf w Hok). by step_run.
Qed.

Lemma appends_only_removeOldDNS (cfg : MasterConfiguration) (dryRun : bool) :
  appends_only [] (removeOldDNSStep cfg dryRun).
Proof.
  intros W h w errs. unfold removeOldDNSStep. destruct dryRun; cbn [negb]; [finish_appends |].
  step_run. rewrite app_nil_r. apply appends_option.
  unfold removeOldDNSDeploymentIfAnotherDNSIsUsed.
  pose proof (trace_all_TryRunCommand (fun c => step_failure c = None)
                (removeOldDNSDeployment_attempt cfg) 10
                (trace_all_attempt _ cfg (fun _ _ _ => eq_refl) (fun _ _ _ => eq_refl))
                (fun _ => eq_refl) W h w) as Hquiet.
  rewrite (omap_none _ _ Hquiet). split; [apply sublist_nil_l |]. split; [apply sublist_nil_l |].
  intros Hall. unfold TryRunCommand.
  by rewrite (TryRunCommand_ok h _ 10 (fun w' => attempt_ok h w' cfg) w None Hall).
Qed.

Lemma postUpgradeErrs_chain (cfg : MasterConfiguration) (newK8sVer : Version) (dryRun : bool) :
  postUpgradeErrs cfg newK8sVer dryRun = chain (postUpgradeSteps cfg newK8sVer dryRun) [].
Proof. reflexivity. Qed.

(** The body of the orchestrator only appends, keeps the failure of each of
    its single-call steps, and makes every unconditional call. *)
Lemma postUpgradeErrs_appends_only (cfg : MasterConfiguration) (newK8sVer : Version)
    (dryRun : bool) :
  appends_only unconditional_steps (chain (postUpgradeSteps cfg newK8sVer dryRun)).
Proof.
  apply (appends_only_chain
           [ ["uploadconfig.UploadConfiguration"]; ["kubeletphase.CreateConfigMap"]; [];
             ["patchnodephase.AnnotateCRISocket"];
             ["nodebootstraptoken.AllowBootstrapTokensToPostCSRs"];
             ["nodebootstraptoken.AutoApproveNodeBootstrapTokens"];
             ["nodebootstraptoken.AutoApproveNodeCertificateRotation"]; [];
             ["clusterinfo.CreateClusterInfoRBACRules"]; ["certutil.CertsFromFile"];
             ["dns.EnsureDNSAddon"]; []; ["proxy.EnsureProxyAddon"] ]).
  unfold postUpgradeSteps.
  repeat first
    [ apply Forall2_nil_2
    | apply Forall2_cons_2;
      [ first [ apply appends_only_call; intros []; cbn; done
              | apply appends_only_block;
                first [ apply appends_only_kubelet | apply appends_only_certBackup
                      | apply appends_only_removeOldDNS ]
              | apply appends_only_selfHosting ] | ] ].
Qed.

End Steps.

(** ** The orchestrator *)

Lemma run_makes_unconditional_steps {ext : Externals} {W : Type} (h : handler W) (w : W)
    (cfg : MasterConfiguration) (newK8sVer : Version) (dryRun : bool) :
  sublist unconditional_steps
    (call_name <$> trace h (PerformPostUpgradeTasks cfg newK8sVer dryRun) w).
Proof.
  unfold PerformPostUpgradeTasks. step_run. rewrite app_nil_r, postUpgradeErrs_chain.
  by destruct (postUpgradeErrs_appends_only cfg newK8sVer dryRun W h w [])
    as (new & _ & _ & Hnames & _).
Qed.

(** C7. The kubelet configuration steps (lines 68-82).  In a dry run a
    failure to create the temporary directory is appended and no download is
    attempted; when the directory resolves the download goes into it, and its
    failure is appended unless it is a "not found" failure in a dry run, which
    appends nothing.  Outside a dry run the directory is the fixed one and
    every download failure is appended.  Whatever happens here, the run goes
    on to make every unconditional call. *)
Theorem kubelet_config_failures_are_appended {ext : Externals} {W : Type} (h : handler W)
    (w : W) (cfg : MasterConfiguration) (newK8sVer : Version) (dryRun : bool)
    (errs : list error) :
  let tr := trace h (kubeletConfigSteps newK8sVer dryRun errs) w in
  let res := result h (kubeletConfigSteps newK8sVer dryRun errs) w in
  (if dryRun then
     let resolve := h _ (TempDir "" "kubeadm-upgrade-dryrun") w in
     match resolve.1 with
     | inr err =>
         res = append errs err /\
         tr = [Call (TempDir "" "kubeadm-upgrade-dryrun") (inr err)]
     | inl kubeletDir =>
         let downloaded := (h _ (DownloadConfig newK8sVer kubeletDir) resolve.2).1 in
         tr = [Call (TempDir "" "kubeadm-upgrade-dryrun") (inl kubeletDir);
               Call (DownloadConfig newK8sVer kubeletDir) downloaded] /\
         res = match downloaded with
               | None => errs
               | Some e => if IsNotFound e then errs else append errs (download_failure e)
               end
     end
   else
     let downloaded := (h _ (DownloadConfig newK8sVer kubeadmconstants.KubeletRunDirectory) w).1 in
     tr = [Call (DownloadConfig newK8sVer kubeadmconstants.KubeletRunDirectory) downloaded] /\
     res = match downloaded with
           | None => errs
           | Some e => append errs (download_failure e)
           end) /\
  sublist unconditional_steps
    (call_name <$> trace h (PerformPostUpgradeTasks cfg newK8sVer dryRun) w).
Proof.
  intros tr res. subst tr res. split; [| apply run_makes_unconditional_steps].
  unfold kubeletConfigSteps, getKubeletDir, download_failure. destruct dryRun; step_run.
  - destruct (h _ (TempDir "" "kubeadm-upgrade-dryrun") w) as [[dir | err] w1];
      cbn [fst snd]; step_run; [| done].
    destruct (h _ (DownloadConfig newK8sVer dir) w1) as [[e|] w2]; cbn [fst snd];
      [destruct (IsNotFound e); cbn [negb andb] |]; by step_run.
  - destruct (h _ (DownloadConfig newK8sVer kubeadmconstants.KubeletRunDirectory) w)
      as [[e|] w2]; cbn [fst snd]; rewrite ?andb_false_r; cbn [negb]; by step_run.
Qed.

(** ** Self-hosting *)

Lemma upgradeToSelfHosting_run {ext : Externals} {W : Type} (h : handler W) (w : W)
    (cfg : MasterConfiguration) (dryRun : bool) :
  let convert := CreateSelfHostedControlPlane GetStaticPodDirectory
                   kubeadmconstants.KubernetesDir cfg (getWaiter dryRun) dryRun in
  let asked := h _ IsControlPlaneSelfHosted w in
  let printed := h _ (Println "[self-hosted] Creating self-hosted control plane.") asked.2 in
  let converted := h _ convert printed.2 in
  if Enabled (FeatureGates cfg) features.SelfHosting then
    if asked.1 then
      run h (upgradeToSelfHosting cfg dryRun) w
        = (None, asked.2, [Call IsControlPlaneSelfHosted true])
    else
      run h (upgradeToSelfHosting cfg dryRun) w
        = ((fun e => Errorf ("error creating self hosted control plane: " +:+ Error e))
             <$> converted.1,
           converted.2,
           [Call IsControlPlaneSelfHosted false;
            Call (Println "[self-hosted] Creating self-hosted control plane.") printed.1;
            Call convert converted.1])
  else run h (upgradeToSelfHosting cfg dryRun) w = (None, w, []).
Proof.
  intros convert asked printed converted. subst converted printed asked.
  unfold upgradeToSelfHosting. fold convert.
  destruct (Enabled (FeatureGates cfg) features.SelfHosting); [| done].
  cbn. destruct (h _ IsControlPlaneSelfHosted w) as [[|] w1]; cbn; [done |].
  destruct (h _ (Println _) w1) as [u w2]; cbn.
  by destruct (h _ convert w2) as [[e|] w3].
Qed.

Lemma upgradeToSelfHosting_at_most_once {ext : Externals} {W : Type} (h : handler W) (w : W)
    (cfg : MasterConfiguration) (dryRun : bool) :
  (length (conversions (trace h (upgradeToSelfHosting cfg dryRun) w)) <= 1)%nat.
Proof.
  pose proof (upgradeToSelfHosting_run h w cfg dryRun) as Hrun. cbv zeta in Hrun.
  unfold trace. destruct (Enabled _ _); [destruct (h _ IsControlPlaneSelfHosted w).1 |];
    rewrite Hrun; cbn; lia.
Qed.

(** C9. [upgradeToSelfHosting], in every cluster and in dry runs as in real
    ones.  Unless the SelfHosting gate is enabled and the control plane is not
    self-hosted, the call returns nil and makes no conversion; when both hold
    it makes exactly one conversion, handing over the waiter of [getWaiter],
    and returns the conversion's failure wrapped, or nil.  The waiter of a dry
    run is the no-op one, the other waits up to 30 minutes.  Two calls in a
    row make at most two conversions, and in a cluster that reports itself
    self-hosted once a conversion has succeeded, two calls of which the first
    succeeds make at most one conversion in total. *)
Theorem upgradeToSelfHosting_converts_once {ext : Externals} {W : Type} (h : handler W) (w : W)
    (cfg : MasterConfiguration) (dryRun : bool) :
  let convert := CreateSelfHostedControlPlane GetStaticPodDirectory
                   kubeadmconstants.KubernetesDir cfg (getWaiter dryRun) dryRun in
  let tr := trace h (upgradeToSelfHosting cfg dryRun) w in
  let res := result h (upgradeToSelfHosting cfg dryRun) w in
  let both := trace h (upgradeToSelfHosting_twice cfg dryRun) w in
  (if Enabled (FeatureGates cfg) features.SelfHosting
      && negb (h _ IsControlPlaneSelfHosted w).1
   then exists r,
          conversions tr = [Call convert r] /\
          res = (fun e => Errorf ("error creating self hosted control plane: " +:+ Error e)) <$> r
   else conversions tr = [] /\ res = None) /\
  getWaiter true = DryRunWaiter /\
  getWaiter false = KubeWaiter (30 * Minute) /\
  (length (conversions both) <= 2)%nat /\
  (reports_conversion h convert ->
   (result h (upgradeToSelfHosting_twice cfg dryRun) w).1 = None ->
   (length (conversions both) <= 1)%nat).
Proof.
  intros convert tr res both. subst tr res both.
  pose proof (upgradeToSelfHosting_run h w cfg dryRun) as Hrun. cbv zeta in Hrun. fold convert in Hrun.
  split; [| split; [done | split; [done | split]]].
  - unfold trace, result. destruct (Enabled _ _); cbn [andb]; [| by rewrite Hrun].
    destruct (h _ IsControlPlaneSelfHosted w).1; cbn [negb]; rewrite Hrun; [done |].
    cbn. eauto.
  - unfold upgradeToSelfHosting_twice. step_run. rewrite app_nil_r.
    unfold conversions. rewrite List.filter_app, length_app.
    change (List.filter is_convert) with conversions.
    pose proof (upgradeToSelfHosting_at_most_once h w cfg dryRun).
    pose proof (upgradeToSelfHosting_at_most_once h (world h (upgradeToSelfHosting cfg dryRun) w)
                  cfg dryRun).
    lia.
  - intros Hstate. unfold upgradeToSelfHosting_twice. step_run. rewrite app_nil_r.
    unfold conversions. rewrite List.filter_app, length_app.
    change (List.filter is_convert) with conversions.
    pose proof (upgradeToSelfHosting_at_most_once h (world h (upgradeToSelfHosting cfg dryRun) w)
                  cfg dryRun) as Hsecond.
    assert (Hparts : run h (upgradeToSelfHosting cfg dryRun) w =
              (result h (upgradeToSelfHosting cfg dryRun) w,
               world h (upgradeToSelfHosting cfg dryRun) w,
               trace h (upgradeToSelfHosting cfg dryRun) w))
      by (unfold result, world, trace; by destruct (run h _ w) as [[? ?] ?]).
    rewrite Hparts in Hrun. clear Hparts.
    destruct (Enabled (FeatureGates cfg) features.SelfHosting) eqn:Hgate;
      [| injection Hrun as _ _ ->; cbn; lia].
    destruct (h _ IsControlPlaneSelfHosted w).1; [injection Hrun as _ _ ->; cbn; lia |].
    injection Hrun as Hres Hworld Htrace. rewrite Hres. intros Hfirst.
    assert (Hok : (h _ convert (h _ (Println "[self-hosted] Creating self-hosted control plane.")
                                  (h _ IsControlPlaneSelfHosted w).2).2).1 = None)
      by (by destruct (h _ convert _).1).
    pose proof (upgradeToSelfHosting_run h (world h (upgradeToSelfHosting cfg dryRun) w)
                  cfg dryRun) as Hrun2.
    cbv zeta in Hrun2. rewrite Hgate, Hworld, (Hstate _ Hok) in Hrun2.
    rewrite Htrace. unfold trace at 1. rewrite Hworld, Hrun2. cbn. lia.
Qed.

(** ** Certificate backup at the orchestrator *)

(** What lines 121-135 do, by the outcome of the determination and of the
    backup. *)
Lemma certBackupSteps_run {ext : Externals} {W : Type} (h : handler W) (w : W)
    (cfg : MasterConfiguration) (errs : list error) :
  let should := shouldBackupAPIServerCertAndKey DefaultCertificatesDir in
  let backup := backupAPIServerCertAndKey DefaultCertificatesDir in
  let w1 := world h should w in
  let w2 := world h backup w1 in
  let tr := trace h (certBackupSteps cfg errs) w in
  let res := result h (certBackupSteps cfg errs) w in
  match result h should w with
  | inr err =>
      res = errs /\
      tr = trace h should w ++ [Call (Printf (determine_warning err)) tt]
  | inl false => res = errs /\ tr = trace h should w
  | inl true =>
      match result h backup w1 with
      | Some e =>
          let reissued :=
            (h _ (CreateAPIServerCertAndKeyFiles cfg) (h _ (Printf (backup_warning e)) w2).2).1 in
          res = appendErr errs reissued /\
          tr = trace h should w ++ trace h backup w1 ++
               [Call (Printf (backup_warning e)) tt;
                Call (CreateAPIServerCertAndKeyFiles cfg) reissued]
      | None =>
          let reissued := (h _ (CreateAPIServerCertAndKeyFiles cfg) w2).1 in
          res = appendErr errs reissued /\
          tr = trace h should w ++ trace h backup w1 ++
               [Call (CreateAPIServerCertAndKeyFiles cfg) reissued]
      end
  end.
Proof.
  intros should backup w1 w2 tr res. subst tr res w2 w1. unfold certBackupSteps.
  fold should backup. step_run.
  destruct (result h should w) as [[|] | err]; step_run.
  - destruct (result h backup (world h should w)) as [e|]; step_run.
    + fold (backup_warning e). destruct (h _ (Printf (backup_warning e)) _) as [[] w3].
      cbn [fst snd]. by rewrite !app_nil_r.
    + by rewrite !app_nil_r.
  - by rewrite !app_nil_r.
  - fold (determine_warning err). destruct (h _ (Printf (determine_warning err)) _) as [[] w3].
    by rewrite !app_nil_r.
Qed.

(** C8. A failure to determine whether to back up the certificate and key is
    printed and leaves [errs] as it was; a failure of the backup is printed
    and what is appended is the failure of the reissue alone, if any.  A run
    in which every call outside the determination and the backup came back
    without failure returns nil. *)
Theorem backup_failures_are_warnings {ext : Externals} {W : Type} (h : handler W) (w : W)
    (cfg : MasterConfiguration) (newK8sVer : Version) (dryRun : bool) (errs : list error) :
  let should := shouldBackupAPIServerCertAndKey DefaultCertificatesDir in
  let backup := backupAPIServerCertAndKey DefaultCertificatesDir in
  let w1 := world h should w in
  let w2 := world h backup w1 in
  let tr := trace h (certBackupSteps cfg errs) w in
  let res := result h (certBackupSteps cfg errs) w in
  match result h should w with
  | inr err =>
      res = errs /\
      tr = trace h should w ++ [Call (Printf (determine_warning err)) tt]
  | inl false => True
  | inl true =>
      match result h backup w1 with
      | Some e =>
          let reissued :=
            (h _ (CreateAPIServerCertAndKeyFiles cfg) (h _ (Printf (backup_warning e)) w2).2).1 in
          res = appendErr errs reissued /\
          tr = trace h should w ++ trace h backup w1 ++
               [Call (Printf (backup_warning e)) tt;
                Call (CreateAPIServerCertAndKeyFiles cfg) reissued]
      | None => True
      end
  end /\
  (Forall (fun c => is_backup_call c || call_ok c = true)
     (trace h (PerformPostUpgradeTasks cfg newK8sVer dryRun) w) ->
   result h (PerformPostUpgradeTasks cfg newK8sVer dryRun) w = None).
Proof.
  intros should backup w1 w2 tr res. split.
  - pose proof (certBackupSteps_run h w cfg errs) as Hrun. cbv zeta in Hrun.
    subst tr res w2 w1 should backup.
    destruct (result h (shouldBackupAPIServerCertAndKey DefaultCertificatesDir) w)
      as [[|] | err]; [| done | done].
    by destruct (result h (backupAPIServerCertAndKey DefaultCertificatesDir) _).
  - unfold PerformPostUpgradeTasks. step_run. rewrite app_nil_r, postUpgradeErrs_chain.
    destruct (postUpgradeErrs_appends_only cfg newK8sVer dryRun W h w [])
      as (new & Hres & _ & _ & Hquiet).
    intros Hall. by rewrite Hres, (Hquiet Hall).
Qed.

(** ** Backing up into an existing directory *)

Lemma events_all_bind {A B : Type} (Q : forall X : Type, event X -> Prop) (m : prog A)
    (f : A -> prog B) :
  events_all Q m -> (forall a, events_all Q (f a)) -> events_all Q (m ≫= f).
Proof.
  intros Hm Hf. induction m as [a | X e k IH]; [apply Hf |].
  destruct Hm as [He Hk]. split; [done |]. intros x. by apply IH.
Qed.

Lemma events_all_trigger {X : Type} (Q : forall X : Type, event X -> Prop) (e : event X) :
  Q X e -> events_all Q (trigger e).
Proof. by split. Qed.

Lemma world_invariant {S A : Type} (H : handler S) (Q : forall X : Type, event X -> Prop)
    (I : S -> Prop) (m : prog A) :
  (forall X (e : event X) s, Q X e -> I s -> I (H X e s).2) ->
  events_all Q m -> forall s, I s -> I (world H m s).
Proof.
  intros Hstep. induction m as [a | X e k IH]; intros Hm s Hs; [done |].
  destruct Hm as [He Hk]. specialize (Hstep X e s He Hs).
  unfold world in *. cbn. destruct (H X e s) as [x s1]. specialize (IH x (Hk x) s1 Hstep).
  by destruct (run H (k x) s1) as [[a s2] tr].
Qed.

Lemma with_fs_keeps_path {W : Type} (pol : fs_policy) (h : handler W) (p : string)
    (X : Type) (e : event X) (s : gmap string node * W) :
  keeps_path p X e -> is_Some (s.1 !! p) -> is_Some ((with_fs pol h X e s).2.1 !! p).
Proof.
  destruct s as [fs w]. destruct e; cbn; intros Hkeep Hp;
    try (by destruct (h _ _ w)).
  - unfold os_Mkdir. destruct (fs !! name); [done |].
    destruct (mkdir_denied pol fs name); [done |]. cbn.
    rewrite lookup_insert. case_decide; [by eexists | done].
  - unfold os_Rename. destruct (fs !! oldpath) as [n|]; [| done].
    destruct (rename_denied pol fs oldpath newpath); [done |]. cbn.
    rewrite lookup_insert. case_decide; [by eexists |]. by rewrite lookup_delete_ne.
Qed.

Lemma with_fs_off_fs {W : Type} (pol : fs_policy) (h : handler W) (fs : gmap string node)
    (X : Type) (e : event X) (s : gmap string node * W) :
  off_fs X e -> s.1 = fs -> (with_fs pol h X e s).2.1 = fs.
Proof.
  destruct s as [fs' w]. destruct e; cbn; intros Hoff Hfs; try done;
    by destruct (h _ _ w).
Qed.

Lemma join_inj_name (dir a b : string) : filepath_Join dir a = filepath_Join dir b -> a = b.
Proof.
  unfold filepath_Join. intros Heq.
  apply (inj (String.app dir)) in Heq. by apply (inj (String.app "/")) in Heq.
Qed.

Lemma join_join_ne (dir a b : string) : filepath_Join (filepath_Join dir a) b <> filepath_Join dir a.
Proof.
  unfold filepath_Join. intros Heq. apply (f_equal String.length) in Heq.
  rewrite !string_app_length in Heq. cbn in Heq. lia.
Qed.

Section Backup.
Context {ext : Externals}.

Lemma events_all_rollbackFiles (p : string) (files : gmap string string) (originalErr : error) :
  files !! p = None -> events_all (keeps_path p) (rollbackFiles files originalErr).
Proof.
  intros Hp. unfold rollbackFiles. apply events_all_bind; [| done].
  assert (Hin : forall q, q ∈ range files -> q.1 <> p).
  { intros [k v] Hq. rewrite range_perm in Hq. apply elem_of_map_to_list in Hq.
    cbn. intros ->. congruence. }
  revert Hin. generalize [originalErr].
  induction (range files) as [|[from to] todo IH]; intros errs Hin; [done |].
  cbn [rollbackFiles_loop]. apply events_all_bind.
  - apply events_all_trigger. apply (Hin (from, to)). by left.
  - intros err. apply IH. intros q Hq. apply Hin. by right.
Qed.

Lemma events_all_moveFiles_loop (p : string) (todo : list (string * string))
    (acc : gmap string string) :
  (forall q, q ∈ todo -> q.1 <> p /\ q.2 <> p) -> acc !! p = None ->
  events_all (keeps_path p) (moveFiles_loop todo acc).
Proof.
  revert acc. induction todo as [|[from to] todo IH]; intros acc Hin Hacc; [done |].
  destruct (Hin (from, to)) as [Hfrom Hto]; [by left |]. cbn in Hfrom, Hto.
  cbn [moveFiles_loop]. apply events_all_bind; [by apply events_all_trigger |].
  intros [e|]; [by apply events_all_rollbackFiles |].
  apply IH; [intros q Hq; apply Hin; by right |]. by rewrite lookup_insert_ne.
Qed.

Lemma events_all_backup (certAndKeyDir : string) :
  events_all (keeps_path (filepath_Join certAndKeyDir "expired"))
    (backupAPIServerCertAndKey certAndKeyDir).
Proof.
  unfold backupAPIServerCertAndKey. apply events_all_bind; [by apply events_all_trigger |].
  intros [e|]; [done |]. unfold moveFiles.
  apply events_all_moveFiles_loop; [| apply lookup_empty].
  intros [from to] Hq. rewrite range_perm in Hq. apply elem_of_map_to_list in Hq.
  apply lookup_insert_Some in Hq as [[<- <-] | [_ Hq]];
    [| apply lookup_insert_Some in Hq as [[<- <-] | [_ Hq]]; [| by rewrite lookup_empty in Hq]];
    cbn; (split; [intros Heq%join_inj_name; discriminate Heq | apply join_join_ne]).
Qed.

Lemma events_all_shouldBackup (certAndKeyDir : string) :
  events_all off_fs (shouldBackupAPIServerCertAndKey certAndKeyDir).
Proof.
  unfold shouldBackupAPIServerCertAndKey. split; [done |].
  intros [[|cert certs] | err]; cbn; try done. split; [done |]. intros now.
  by destruct (expiry <? Sub now (NotBefore cert)).
Qed.

(** Backing up into a certificate directory whose "expired" sub-directory
    exists: [os.Mkdir] fails, so the backup fails at once and leaves the file
    system as it was. *)
Lemma backup_refused {W : Type} (pol : fs_policy) (h : handler W) (fs : gmap string node)
    (w : W) (certAndKeyDir : string) :
  let subDir := filepath_Join certAndKeyDir "expired" in
  is_Some (fs !! subDir) ->
  run (with_fs pol h) (backupAPIServerCertAndKey certAndKeyDir) (fs, w)
    = (Some (Errorf ("failed to created backup directory " +:+ subDir +:+ ": "
                     +:+ "mkdir " +:+ subDir +:+ ": file exists")),
       (fs, w),
       [Call (Mkdir subDir 502%N) (Some (Errorf ("mkdir " +:+ subDir +:+ ": file exists")))]).
Proof.
  intros subDir [n Hn]. unfold backupAPIServerCertAndKey. fold subDir.
  cbn. unfold os_Mkdir. by rewrite Hn.
Qed.

End Backup.

(** C10. With a file system in which [os.Mkdir] refuses a name that exists:
    when the "expired" sub-directory of the certificate directory exists,
    [backupAPIServerCertAndKey] returns an error after the failed [os.Mkdir]
    alone, with no rename made and the file system unchanged; and of two
    backups of the same directory in a row the second always returns an
    error.  At the orchestrator such a failure is printed as a warning and
    not appended. *)
Theorem backup_is_not_idempotent {ext : Externals} {W : Type} (pol : fs_policy)
    (h : handler W) (fs : gmap string node) (w : W) (certAndKeyDir : string)
    (cfg : MasterConfiguration) (errs : list error) :
  let subDir := filepath_Join certAndKeyDir "expired" in
  let backup := backupAPIServerCertAndKey certAndKeyDir in
  let H := with_fs pol h in
  (is_Some (fs !! subDir) ->
   (exists e, result H backup (fs, w) = Some e) /\
   world H backup (fs, w) = (fs, w) /\
   trace H backup (fs, w)
     = [Call (Mkdir subDir 502%N) (Some (Errorf ("mkdir " +:+ subDir +:+ ": file exists")))] /\
   Forall (fun c => is_rename c = false) (trace H backup (fs, w))) /\
  (exists e, (result H (backup_twice certAndKeyDir) (fs, w)).2 = Some e) /\
  (is_Some (fs !! filepath_Join DefaultCertificatesDir "expired") ->
   result H (shouldBackupAPIServerCertAndKey DefaultCertificatesDir) (fs, w) = inl true ->
   exists e reissued,
     result H (certBackupSteps cfg errs) (fs, w) = appendErr errs reissued /\
     Call (Printf (backup_warning e)) tt ∈ trace H (certBackupSteps cfg errs) (fs, w)).
Proof.
  intros subDir backup H. split; [| split].
  - intros Hexists. pose proof (backup_refused pol h fs w certAndKeyDir Hexists) as Hrun.
    unfold result, world, trace. fold subDir backup H in Hrun. rewrite Hrun. cbn [fst snd].
    repeat split; [by eexists | by repeat constructor].
  - unfold backup_twice. fold backup. step_run.
    set (s1 := world H backup (fs, w)).
    assert (Hcases : is_Some (s1.1 !! subDir) \/
                     (s1 = (fs, w) /\ exists e, result H backup (fs, w) = Some e)).
    { subst s1. unfold backup, backupAPIServerCertAndKey. fold subDir. step_run.
      assert (Hmk : H _ (Mkdir subDir 502%N) (fs, w)
                    = ((os_Mkdir pol fs subDir).1, ((os_Mkdir pol fs subDir).2, w)))
        by (cbn; by destruct (os_Mkdir pol fs subDir)).
      rewrite Hmk. cbn [fst snd]. unfold os_Mkdir.
      destruct (fs !! subDir) as [n|] eqn:Hfs; cbn [fst snd].
      - right. step_run. by eauto.
      - destruct (mkdir_denied pol fs subDir) as [e|]; cbn [fst snd].
        + right. step_run. by eauto.
        + left. pose proof (events_all_backup certAndKeyDir) as Hkeep.
          unfold backupAPIServerCertAndKey in Hkeep. fold subDir in Hkeep.
          destruct Hkeep as [_ Hkeep]. specialize (Hkeep None).
          apply (world_invariant H (keeps_path subDir) (fun s => is_Some (s.1 !! subDir)) _
                   (fun X e s => with_fs_keeps_path pol h subDir X e s) Hkeep).
          cbn. rewrite lookup_insert_eq. by eexists. }
    destruct Hcases as [Hexists | [-> Hfailed]]; [| done].
    destruct s1 as [fs1 w1]. pose proof (backup_refused pol h fs1 w1 certAndKeyDir Hexists) as Hrun.
    unfold result. fold subDir backup H in Hrun. rewrite Hrun. by eexists.
  - intros Hexists Hshould.
    pose proof (certBackupSteps_run H (fs, w) cfg errs) as Hsteps. cbv zeta in Hsteps.
    rewrite Hshould in Hsteps.
    assert (Hfs : (world H (shouldBackupAPIServerCertAndKey DefaultCertificatesDir) (fs, w)).1 = fs).
    { apply (world_invariant H off_fs (fun s => s.1 = fs) _
               (fun X e s => with_fs_off_fs pol h fs X e s)
               (events_all_shouldBackup DefaultCertificatesDir)). done. }
    destruct (world H (shouldBackupAPIServerCertAndKey DefaultCertificatesDir) (fs, w))
      as [fs1 w1]. cbn in Hfs. subst fs1.
    pose proof (backup_refused pol h fs w1 DefaultCertificatesDir Hexists) as Hrun.
    fold H in Hrun. unfold result at 1, world at 1, trace at 2 in Hsteps.
    rewrite Hrun in Hsteps. cbn [fst snd] in Hsteps. destruct Hsteps as [Hres Htr].
    eexists _, _. split; [exact Hres |]. rewrite Htr.
    rewrite !elem_of_app. right. right. left.
Qed.

(** ** Dry runs *)

Lemma trace_all_chain (P : call -> Prop) (steps : list step) (errs : list error) :
  Forall (fun s => forall errs', trace_all P (step_body s errs')) steps ->
  trace_all P (chain steps errs).
Proof.
  intros Hsteps. revert errs. induction Hsteps as [|s steps Hs _ IH]; intros errs.
  - apply trace_all_ret.
  - cbn [chain]. apply trace_all_bind; [apply Hs | intros; apply IH].
Qed.

(** In a dry run no attempt of the DNS deployment swap is made: no
    deployment is fetched and none is deleted. *)
Lemma dry_run_skips_dns_swap {ext : Externals} {W : Type} (h : handler W) (w : W)
    (cfg : MasterConfiguration) (newK8sVer : Version) :
  Forall (fun c => is_dns_swap c = false)
    (trace h (PerformPostUpgradeTasks cfg newK8sVer true) w).
Proof.
  unfold PerformPostUpgradeTasks. step_run. rewrite app_nil_r, postUpgradeErrs_chain.
  apply trace_all_chain. unfold postUpgradeSteps.
  repeat (apply Forall_cons_2; [intros errs'; cbn [step_body call_step block_step func_step] |]);
    try apply Forall_nil_2; try (by apply trace_all_trigger).
  - unfold kubeletConfigSteps, getKubeletDir. repeat trace_all_step.
  - by apply trace_all_upgradeToSelfHosting.
  - unfold certBackupSteps.
    apply trace_all_bind; [by apply trace_all_shouldBackup |].
    intros [[|] | err]; repeat trace_all_step.
    by apply trace_all_backup.
  - apply trace_all_ret.
Qed.

(** C2 fails on the code.  A dry run against a certificate issued 181 days
    ago returns nil, makes no attempt of the DNS deployment swap, and yet
    makes the backup directory, moves the certificate and the key into it
    and has them reissued: the certificate directory is not what it was. *)
Theorem dry_run_backup_moves_files :
  result aged_cluster dry_run_task (pki_fs, false) = None /\
  Forall (fun c => is_dns_swap c = false) (trace aged_cluster dry_run_task (pki_fs, false)) /\
  call_name <$> List.filter is_fs_mutation (trace aged_cluster dry_run_task (pki_fs, false))
    = ["os.Mkdir"; "os.Rename"; "os.Rename"; "certsphase.CreateAPIServerCertAndKeyFiles"] /\
  pki_fs !! "/etc/kubernetes/pki/apiserver.crt" = Some (File "cert") /\
  dry_run_fs !! "/etc/kubernetes/pki/apiserver.crt" = None /\
  dry_run_fs !! "/etc/kubernetes/pki/expired" = Some Dir /\
  dry_run_fs !! "/etc/kubernetes/pki/expired/apiserver.crt" = Some (File "cert") /\
  dry_run_fs <> pki_fs.
Proof.
  assert (Hgone : dry_run_fs !! "/etc/kubernetes/pki/apiserver.crt" = None)
    by (vm_compute; reflexivity).
  assert (Hcrt : pki_fs !! "/etc/kubernetes/pki/apiserver.crt" = Some (File "cert"))
    by (vm_compute; reflexivity).
  split; [vm_compute; reflexivity |].
  split; [apply (dry_run_skips_dns_swap (ext := listing_externals)) |].
  split; [vm_compute; reflexivity |].
  split; [exact Hcrt |]. split; [exact Hgone |].
  split; [vm_compute; reflexivity |]. split; [vm_compute; reflexivity |].
  intros Heq. congruence.
Qed.

(** ** The whole run *)

Lemma renames_renamed_ok (pairs : list (string * string)) : renames (renamed_ok pairs) = pairs.
Proof.
  induction pairs as [|[from to] pairs IH]; [done |].
  unfold renames, renamed_ok in *. cbn. by rewrite IH.
Qed.

Lemma yields_chain (outcomes : list (list call -> list error -> Prop)) (steps : list step) :
  Forall2 (fun outcome s => yields outcome (step_prog s)) outcomes steps ->
  yields (in_sequence outcomes) (chain steps).
Proof.
  induction 1 as [|outcome s outcomes steps Hs _ IH]; intros W h w errs.
  - exists []. cbn. by rewrite app_nil_r.
  - destruct (Hs W h w errs) as (new1 & Hr1 & Ho1). revert Hr1 Ho1.
    unfold step_prog. cbn [chain in_sequence]. step_run. rewrite app_nil_r. intros Hr1 Ho1.
    destruct (IH W h (world h (step_body s errs) w)
                (step_update s errs (result h (step_body s errs) w)))
      as (new2 & Hr2 & Ho2).
    exists (new1 ++ new2). split; [by rewrite Hr2, Hr1, app_assoc |].
    by eexists _, new1, _, new2.
Qed.

Lemma yields_call (e : event (option error)) (wrap : error -> error) :
  yields (call_outcome e wrap) (step_prog (call_step e wrap)).
Proof.
  intros W h w errs. unfold step_prog, call_step. cbn [step_body step_update]. step_run.
  rewrite app_nil_r. destruct (h _ e w) as [r w1]; cbn [fst snd].
  exists (appended wrap r). split; [| by exists r].
  destruct r; [done | by rewrite app_nil_r].
Qed.

Lemma yields_block (outcome : list call -> list error -> Prop)
    (m : list error -> prog (list error)) :
  yields outcome m -> yields outcome (step_prog (block_step m)).
Proof.
  intros Hm W h w errs. destruct (Hm W h w errs) as (new & Hr & Ho).
  exists new. unfold step_prog, block_step. cbn [step_body step_update]. step_run.
  by rewrite app_nil_r.
Qed.

Section Outcomes.
Context {ext : Externals}.

Lemma yields_kubelet (newK8sVer : Version) (dryRun : bool) :
  yields (kubelet_outcome newK8sVer dryRun) (kubeletConfigSteps newK8sVer dryRun).
Proof.
  intros W h w errs. unfold kubeletConfigSteps, getKubeletDir, kubelet_outcome.
  destruct dryRun; step_run.
  - destruct (h _ (TempDir "" "kubeadm-upgrade-dryrun") w) as [[dir | err] w1];
      cbn [fst snd]; step_run.
    + destruct (h _ (DownloadConfig newK8sVer dir) w1) as [[e|] w2] eqn:Hdl; cbn [fst snd].
      * destruct (IsNotFound e) eqn:Hnf; cbn [negb andb]; step_run.
        -- exists []. rewrite app_nil_r. split; [done |]. right. exists dir, (Some e).
           by rewrite Hnf.
        -- exists [download_failure e]. split; [done |]. right. exists dir, (Some e).
           by rewrite Hnf.
      * step_run. exists []. rewrite app_nil_r. split; [done |]. right. by exists dir, None.
    + exists [err]. split; [done |]. left. by exists err.
  - destruct (h _ (DownloadConfig newK8sVer kubeadmconstants.KubeletRunDirectory) w)
      as [[e|] w2]; cbn [fst snd]; rewrite ?andb_false_r; cbn [negb]; step_run.
    + exists [download_failure e]. split; [done |]. by exists (Some e).
    + exists []. rewrite app_nil_r. split; [done |]. by exists None.
Qed.

Lemma yields_selfHosting (cfg : MasterConfiguration) (dryRun : bool) :
  yields (selfhosting_outcome cfg dryRun) (step_prog (func_step (upgradeToSelfHosting cfg dryRun))).
Proof.
  intros W h w errs. unfold step_prog, func_step, selfhosting_outcome, upgradeToSelfHosting.
  cbn [step_body step_update].
  destruct (Enabled (FeatureGates cfg) features.SelfHosting); step_run;
    [| exists []; by rewrite app_nil_r].
  destruct (h _ IsControlPlaneSelfHosted w) as [[|] w1]; cbn [fst snd negb]; step_run.
  { exists []. rewrite app_nil_r. split; [done |]. by left. }
  destruct (h _ (Println _) w1) as [[] w2]; cbn [fst snd].
  destruct (h _ (CreateSelfHostedControlPlane _ _ _ _ _) w2) as [r w3] eqn:Hconv; cbn [fst snd].
  exists (appended (fun e => Errorf ("error creating self hosted control plane: " +:+ Error e)) r).
  split; [by destruct r; step_run; rewrite ?app_nil_r |].
  right. exists r. split; [| done]. by destruct r; step_run.
Qed.

Lemma backup_outcome_run {W : Type} (h : handler W) (w : W) :
  let backup := backupAPIServerCertAndKey DefaultCertificatesDir in
  exists made moves,
    trace h backup w = Call (Mkdir "/etc/kubernetes/pki/expired" 502%N) made :: moves /\
    Forall (fun c => is_rename c = true) moves /\
    match made with
    | Some e =>
        moves = [] /\
        result h backup w
          = Some (Errorf ("failed to created backup directory /etc/kubernetes/pki/expired: "
                          +:+ Error e))
    | None =>
        match rename_errors moves with
        | [] =>
            renames moves ≡ₚ
              [("/etc/kubernetes/pki/apiserver.crt", "/etc/kubernetes/pki/expired/apiserver.crt");
               ("/etc/kubernetes/pki/apiserver.key", "/etc/kubernetes/pki/expired/apiserver.key")] /\
            result h backup w = None
        | _ :: _ => moves <> [] /\ exists e, result h backup w = Some e
        end
    end.
Proof.
  intros backup. subst backup. unfold backupAPIServerCertAndKey. step_run.
  destruct (h _ (Mkdir _ _) w) as [[e|] w1]; cbn [fst snd]; step_run.
  { exists (Some e), []. by repeat split. }
  exists None, (trace h (moveFiles (backup_moves DefaultCertificatesDir)) w1).
  split; [done |].
  change (result h (moveFiles _) w1)
    with (result h (moveFiles (backup_moves DefaultCertificatesDir)) w1).
  unfold moveFiles.
  destruct (moveFiles_loop_run h (range (backup_moves DefaultCertificatesDir)) ∅ w1)
    as [[Hres Htr] | (moved & from & to & e0 & rest & w' & Hsplit & Htr & Hres)].
  - rewrite Htr, Hres, rename_errors_renamed_ok, renames_renamed_ok.
    split; [apply renamed_ok_all_rename |]. split; [| done].
    rewrite range_perm. unfold backup_moves.
    rewrite !map_to_list_insert, map_to_list_empty; [done | done |].
    by apply (bool_decide_unpack _).
  - destruct (rollbackFiles_run h (recorded moved ∅) e0 w') as (Hall & _ & err & Herr & _).
    rewrite Htr, Hres, Herr, rename_errors_app, rename_errors_renamed_ok, rename_errors_cons.
    cbn [app]. split.
    + apply Forall_app. split; [apply renamed_ok_all_rename | by constructor].
    + split; [by destruct moved | by exists err].
Qed.

Lemma yields_certBackup (cfg : MasterConfiguration) :
  yields (cert_outcome cfg) (certBackupSteps cfg).
Proof.
  intros W h w errs. unfold certBackupSteps, shouldBackupAPIServerCertAndKey, cert_outcome.
  step_run.
  destruct (h _ (CertsFromFile _) w) as [[[|cert certs] | err] w1]; cbn [fst snd]; step_run.
  - destruct (h _ (Printf _) w1) as [[] w2]; cbn [fst snd].
    exists []. rewrite app_nil_r. split; [done |]. by exists (inl []).
  - destruct (h _ Now w1) as [now w2]; cbn [fst snd].
    destruct (expiry <? Sub now (NotBefore cert)) eqn:Hdue; step_run.
    + destruct (backup_outcome_run h w2) as (made & moves & Htr & Hmoves & Hmade).
      cbv zeta in Hmade, Htr.
      set (backup := backupAPIServerCertAndKey DefaultCertificatesDir) in *.
      set (wb := world h backup w2).
      set (printed := trace h _ wb). set (wp := world h _ wb).
      destruct (h _ (CreateAPIServerCertAndKeyFiles cfg) wp) as [reissued w3] eqn:Hre;
        cbn [fst snd].
      exists (appended id reissued). split; [by destruct reissued; rewrite ?app_nil_r |].
      exists (inl (cert :: certs)), now. rewrite Hdue.
      exists (trace h backup w2 ++ printed), reissued.
      split; [by rewrite !app_nil_r, <- !app_assoc |]. split; [| done].
      exists made, moves, printed. rewrite Htr. split; [done |]. split; [done |].
      subst printed wp. destruct made as [e|].
      * destruct Hmade as [-> ->]. split; [done |]. step_run.
        by destruct (h _ (Printf _) wb) as [[] w4].
      * destruct (rename_errors moves) as [|e0 es].
        -- destruct Hmade as [Hperm ->]. by step_run.
        -- destruct Hmade as [Hne [e ->]]. split; [done |]. exists e. step_run.
           by destruct (h _ (Printf _) wb) as [[] w4].
    + exists []. rewrite app_nil_r. split; [done |]. exists (inl (cert :: certs)), now.
      by rewrite Hdue.
  - destruct (h _ (Printf _) w1) as [[] w2]; cbn [fst snd].
    exists []. rewrite app_nil_r. split; [done |]. by exists (inr err).
Qed.

Lemma attempt_outcome_run {W : Type} (h : handler W) (w : W) (cfg : MasterConfiguration) :
  attempt_outcome (dnsDeploymentNames cfg).1 (dnsDeploymentNames cfg).2
    (trace h (removeOldDNSDeployment_attempt cfg) w)
    (result h (removeOldDNSDeployment_attempt cfg) w).
Proof.
  unfold removeOldDNSDeployment_attempt.
  destruct (dnsDeploymentNames cfg) as [installed stale]. cbn [fst snd]. step_run.
  destruct (h _ (GetDeployment NamespaceSystem installed) w) as [[d | err] w1]; cbn [fst snd].
  - destruct (Z.eqb_spec (Status_ReadyReplicas d) 0) as [Hz | Hnz]; step_run.
    + by apply attempt_unready.
    + destruct (h _ (DeleteDeploymentForeground NamespaceSystem stale) w1) as [r w2];
        cbn [fst snd].
      pose proof (attempt_deleted installed stale d r Hnz) as Hout.
      by destruct r as [e|]; [destruct (IsNotFound e) |]; step_run.
  - apply attempt_unfetched.
Qed.

Lemma TryRunCommand_from_again (f : prog (option error)) (n : nat) (last : option error) :
  TryRunCommand_from f (S (S n)) last
    = (err ← f;
       match err with
       | None => mret None
       | Some _ => _ ← trigger Pause; TryRunCommand_from f (S n) err
       end).
Proof. reflexivity. Qed.

Lemma retried_run (attempt : list call -> option error -> Prop) (f : prog (option error)) :
  (forall (W : Type) (h : handler W) (w : W), attempt (trace h f w) (result h f w)) ->
  forall (n : nat) (W : Type) (h : handler W) (w : W) (last : option error),
    retried attempt (S n) (trace h (TryRunCommand_from f (S n) last) w)
      (result h (TryRunCommand_from f (S n) last) w).
Proof.
  intros Hf. induction n as [|n IH]; intros W h w last; pose proof (Hf W h w) as Hone.
  - cbn [TryRunCommand_from]. step_run.
    destruct (result h f w) as [e|]; step_run; rewrite app_nil_r;
      [by apply retried_exhausted | by apply retried_success].
  - rewrite TryRunCommand_from_again. step_run.
    destruct (result h f w) as [e|]; step_run; [| rewrite app_nil_r; by apply retried_success].
    destruct (h _ Pause (world h f w)) as [[] w1]; cbn [fst snd].
    apply (retried_again attempt n _ e); [done | apply IH].
Qed.

Lemma yields_removeOldDNS (cfg : MasterConfiguration) (dryRun : bool) :
  yields (dns_outcome cfg dryRun) (removeOldDNSStep cfg dryRun).
Proof.
  intros W h w errs. unfold removeOldDNSStep, dns_outcome.
  destruct dryRun; cbn [negb]; [exists []; by rewrite app_nil_r |].
  step_run. rewrite app_nil_r.
  exists (appended id (result h (removeOldDNSDeploymentIfAnotherDNSIsUsed cfg) w)).
  split; [by destruct (result h _ w); rewrite ?app_nil_r |].
  pose proof (retried_run _ _ (fun W h w => attempt_outcome_run h w cfg) 9 W h w None) as Hrun.
  unfold dnsDeploymentNames in Hrun.
  destruct (Enabled (FeatureGates cfg) features.CoreDNS); by eexists.
Qed.

Lemma postUpgradeSteps_yield (cfg : MasterConfiguration) (newK8sVer : Version) (dryRun : bool) :
  yields (run_outcome cfg newK8sVer dryRun) (chain (postUpgradeSteps cfg newK8sVer dryRun)).
Proof.
  unfold run_outcome. apply yields_chain. unfold postUpgradeSteps.
  repeat first
    [ apply Forall2_nil_2
    | apply Forall2_cons_2;
      [ first [ apply yields_call
              | apply yields_block;
                first [ apply yields_kubelet | apply yields_certBackup
                      | apply yields_removeOldDNS ]
              | apply yields_selfHosting ] | ] ].
Qed.

End Outcomes.

(** C1. Every run of [PerformPostUpgradeTasks], whatever the collaborators
    answer, makes every step in source order up to the last one: the upload
    of the configuration, the kubelet ConfigMap, the kubelet configuration
    (lines 68-82), the CRI socket annotation, the three bootstrap-token
    rules, the self-hosting upgrade, the cluster-info rules, the certificate
    backup and reissue, the DNS addon, the DNS deployment swap unless
    dry-running, and the proxy addon.  The errors appended are exactly the
    failures of these steps in that order, those of the download and of the
    swap among them.  The run returns nil exactly when no error was appended,
    and otherwise one error whose description mentions every appended error
    in order. *)
Theorem PerformPostUpgradeTasks_aggregates {ext : Externals} {W : Type} (h : handler W) (w : W)
    (cfg : MasterConfiguration) (newK8sVer : Version) (dryRun : bool) :
  let tr := trace h (PerformPostUpgradeTasks cfg newK8sVer dryRun) w in
  let res := result h (PerformPostUpgradeTasks cfg newK8sVer dryRun) w in
  exists errs : list error,
    run_outcome cfg newK8sVer dryRun tr errs /\
    res = NewAggregate errs /\
    (res = None <-> errs = []) /\
    match res with
    | None => True
    | Some agg => mentions_in_order (Error <$> errs) (Error agg)
    end.
Proof.
  intros tr res. subst tr res. unfold PerformPostUpgradeTasks. step_run.
  rewrite app_nil_r, postUpgradeErrs_chain.
  destruct (postUpgradeSteps_yield cfg newK8sVer dryRun W h w []) as (errs & Hres & Hout).
  cbn [app] in Hres. exists errs. rewrite Hres.
  split; [done |]. split; [done |]. split; [apply NewAggregate_nil_iff |].
  destruct (NewAggregate errs) as [agg|] eqn:Hagg; [| done].
  by apply NewAggregate_mentions.
Qed.

(** ** Instances *)

Lemma pki_moves_distinct : NoDup (map_to_list pki_moves).*2.
Proof. apply (bool_decide_unpack _). by vm_compute. Qed.

(** The moves of a backup have distinct destinations; with the certificate
    missing, [moveFiles] returns an error exactly because a rename failed. *)
Lemma moveFiles_rolls_back_witness :
  NoDup (map_to_list pki_moves).*2 /\
  (result fresh_cluster (moveFiles (ext := listing_externals) pki_moves) (pki_fs_without_cert, false)
     = None <->
   Forall (fun c => call_ok c = true)
     (trace fresh_cluster (moveFiles (ext := listing_externals) pki_moves)
        (pki_fs_without_cert, false))).
Proof.
  split; [exact pki_moves_distinct |].
  exact (proj1 (moveFiles_rolls_back (ext := listing_externals) fresh_cluster
                  (pki_fs_without_cert, false) pki_moves pki_moves_distinct)).
Defined.

(** With the certificate missing the key is moved, the move of the
    certificate fails, and the key is moved back: the file system ends as it
    began. *)
Example moveFiles_restores_files :
  renames (trace fresh_cluster (moveFiles (ext := listing_externals) pki_moves)
             (pki_fs_without_cert, false))
    = [("/etc/kubernetes/pki/apiserver.key", "/etc/kubernetes/pki/expired/apiserver.key");
       ("/etc/kubernetes/pki/apiserver.crt", "/etc/kubernetes/pki/expired/apiserver.crt");
       ("/etc/kubernetes/pki/expired/apiserver.key", "/etc/kubernetes/pki/apiserver.key")] /\
  (world fresh_cluster (moveFiles (ext := listing_externals) pki_moves)
     (pki_fs_without_cert, false)).1 = pki_fs_without_cert.
Proof. split; vm_compute; reflexivity. Qed.

(** Why the destinations have to be distinct.  [filesToRecover] is keyed by
    destination: when two moves share one, the second entry replaces the
    first, so after the move of [b] fails only the later of the two moves is
    undone. *)
Example moveFiles_shared_destination :
  renames (trace fresh_cluster (moveFiles (ext := listing_externals) clashing_moves)
             (clashing_fs, false))
    = [("c", "x"); ("a", "x"); ("b", "y"); ("x", "a")] /\
  map_to_list (world fresh_cluster (moveFiles (ext := listing_externals) clashing_moves)
                 (clashing_fs, false)).1
    = [("a", File "A")].
Proof. split; vm_compute; reflexivity. Qed.

(** On a cluster whose DNS deployment has one ready replica the attempt
    fetches it and then deletes the stale one. *)
Lemma dns_swap_deletes_only_when_ready_witness :
  trace (scripted (healthy 0)) (removeOldDNSDeployment_attempt (ext := listing_externals) sample_cfg)
    false
    = [Call (GetDeployment NamespaceSystem kubeadmconstants.CoreDNS)
         (inl {| Status_ReadyReplicas := 1 |});
       Call (DeleteDeploymentForeground NamespaceSystem kubeadmconstants.KubeDNS) None] /\
  result (scripted (healthy 0)) (removeOldDNSDeployment_attempt (ext := listing_externals) sample_cfg)
    false = None.
Proof.
  refine (proj1 (dns_swap_deletes_only_when_ready (ext := listing_externals)
                   (scripted (healthy 0)) false sample_cfg _)).
  intros d [= <-]. cbn. lia.
Defined.

(** A real run whose download fails and whose DNS deployment never gets
    ready goes through every step, the swap being tried ten times with nine
    pauses, and returns the two failures in one error, in that order; the dry
    run returns the failure of the download alone. *)
Example run_aggregates_download_and_swap_failures :
  Error <$> result (scripted unready)
              (PerformPostUpgradeTasks (ext := listing_externals) sample_cfg sample_version false)
              false
    = Some ("[error downloading kubelet configuration from the ConfigMap: configmap unreachable, "
            +:+ "the DNS deployment isn't ready yet]") /\
  call_name <$> trace (scripted unready)
                  (PerformPostUpgradeTasks (ext := listing_externals) sample_cfg sample_version false)
                  false
    = [ "uploadconfig.UploadConfiguration"; "kubeletphase.CreateConfigMap";
        "kubeletphase.DownloadConfig"; "patchnodephase.AnnotateCRISocket";
        "nodebootstraptoken.AllowBootstrapTokensToPostCSRs";
        "nodebootstraptoken.AutoApproveNodeBootstrapTokens";
        "nodebootstraptoken.AutoApproveNodeCertificateRotation";
        "clusterinfo.CreateClusterInfoRBACRules"; "certutil.CertsFromFile";
        "time.Now"; "dns.EnsureDNSAddon"; "Deployments.Get"; "time.Sleep";
        "Deployments.Get"; "time.Sleep"; "Deployments.Get"; "time.Sleep";
        "Deployments.Get"; "time.Sleep"; "Deployments.Get"; "time.Sleep";
        "Deployments.Get"; "time.Sleep"; "Deployments.Get"; "time.Sleep";
        "Deployments.Get"; "time.Sleep"; "Deployments.Get"; "time.Sleep";
        "Deployments.Get"; "proxy.EnsureProxyAddon" ] /\
  Error <$> result (scripted unready)
              (PerformPostUpgradeTasks (ext := listing_externals) sample_cfg sample_version true)
              false
    = Some "error downloading kubelet configuration from the ConfigMap: configmap unreachable".
Proof. repeat split; vm_compute; reflexivity. Qed.

(** On a cluster that turns self-hosted when converted, two calls in a row
    convert once. *)
Lemma upgradeToSelfHosting_converts_once_witness :
  (length (conversions (trace (scripted (healthy 0%Z))
                          (upgradeToSelfHosting_twice (ext := listing_externals) selfhosting_cfg false)
                          false)) <= 1)%nat.
Proof.
  refine (proj2 (proj2 (proj2 (proj2 (upgradeToSelfHosting_converts_once (ext := listing_externals)
                                        (scripted (healthy 0%Z)) false selfhosting_cfg false)))) _ _).
  - intros w' _. reflexivity.
  - reflexivity.
Defined.

(** Where the conversion leaves the check unchanged, as in a simulated
    conversion, each of two calls converts. *)
Example upgradeToSelfHosting_stateless_converts_twice :
  call_name <$> conversions (trace (stateless (healthy 0))
                               (upgradeToSelfHosting_twice (ext := listing_externals) selfhosting_cfg true)
                               tt)
    = ["selfhosting.CreateSelfHostedControlPlane"; "selfhosting.CreateSelfHostedControlPlane"].
Proof. reflexivity. Qed.

Example upgradeToSelfHosting_converts_exactly_once :
  call_name <$> trace (scripted (healthy 0))
                  (upgradeToSelfHosting_twice (ext := listing_externals) selfhosting_cfg false) false
    = ["IsControlPlaneSelfHosted"; "fmt.Println"; "selfhosting.CreateSelfHostedControlPlane";
       "IsControlPlaneSelfHosted"].
Proof. vm_compute. reflexivity. Qed.

Example shouldBackup_at_181_and_179_days :
  result (scripted (healthy (181 * day))) (shouldBackupAPIServerCertAndKey DefaultCertificatesDir)
    false = inl true /\
  result (scripted (healthy (180 * day))) (shouldBackupAPIServerCertAndKey DefaultCertificatesDir)
    false = inl false /\
  result (scripted (healthy (179 * day))) (shouldBackupAPIServerCertAndKey DefaultCertificatesDir)
    false = inl false.
Proof. repeat split; vm_compute; reflexivity. Qed.

(** A second run against the directory a first backup left behind: the
    backup fails, the failure is printed, every other call succeeds, and the
    run returns nil. *)
Example second_backup_is_only_a_warning :
  Forall (fun c => is_backup_call c || call_ok c = true)
    (trace aged_cluster (PerformPostUpgradeTasks (ext := listing_externals) sample_cfg
                           sample_version false) (pki_fs_backed_up, false)) /\
  result aged_cluster (PerformPostUpgradeTasks (ext := listing_externals) sample_cfg
                         sample_version false) (pki_fs_backed_up, false) = None /\
  List.filter is_printf
    (trace aged_cluster (PerformPostUpgradeTasks (ext := listing_externals) sample_cfg
                           sample_version false) (pki_fs_backed_up, false))
    = [Call (Printf (backup_warning
                       (Errorf "failed to created backup directory /etc/kubernetes/pki/expired: mkdir /etc/kubernetes/pki/expired: file exists")))
         tt].
Proof.
  split; [| split; vm_compute; reflexivity].
  apply (bool_decide_unpack _). by vm_compute.
Qed.

Example backed_up_directory_exists :
  is_Some (pki_fs_backed_up !! filepath_Join DefaultCertificatesDir "expired") /\
  result aged_cluster (backup_twice (ext := listing_externals) DefaultCertificatesDir) (pki_fs, false)
    = (None,
       Some (Errorf "failed to created backup directory /etc/kubernetes/pki/expired: mkdir /etc/kubernetes/pki/expired: file exists")).
Proof. split; [by eexists | vm_compute; reflexivity]. Qed.

(** * Further properties *)

(** ** Cutting the run at a step *)

Lemma chain_app {W : Type} (h : handler W) (l1 l2 : list step) (errs : list error) (w : W) :
  run h (chain (l1 ++ l2) errs) w
    = (result h (chain l2 (result h (chain l1 errs) w)) (world h (chain l1 errs) w),
       world h (chain l2 (result h (chain l1 errs) w)) (world h (chain l1 errs) w),
       trace h (chain l1 errs) w
         ++ trace h (chain l2 (result h (chain l1 errs) w)) (world h (chain l1 errs) w)).
Proof.
  revert errs w. induction l1 as [|s l1 IH]; intros errs w.
  - cbn [app chain]. step_run. cbn [app]. unfold result, world, trace.
    by destruct (run h (chain l2 errs) w) as [[? ?] ?].
  - cbn [app chain]. rewrite run_bind, IH. unfold result, world, trace. cbn [fst snd].
    rewrite !run_bind. cbn [fst snd]. by rewrite app_assoc.
Qed.

(** The trace of the orchestrator around one of its steps: what came before
    satisfies what every earlier step satisfies, likewise what came after. *)
Lemma chain_around {W : Type} (h : handler W) (P : call -> Prop) (l1 l2 : list step) (s : step)
    (errs : list error) (w : W) :
  Forall (fun s' => forall errs', trace_all P (step_body s' errs')) l1 ->
  Forall (fun s' => forall errs', trace_all P (step_body s' errs')) l2 ->
  exists before after errs1 w1,
    trace h (chain (l1 ++ s :: l2) errs) w = before ++ trace h (step_body s errs1) w1 ++ after /\
    Forall P before /\ Forall P after.
Proof.
  intros H1 H2. unfold trace at 1. rewrite chain_app. cbn [snd chain]. step_run.
  eexists _, _, _, _. split; [reflexivity |].
  split; [by apply trace_all_chain | by apply trace_all_chain].
Qed.

Section BlockCalls.
Context {ext : Externals} (P : call -> Prop).

Lemma trace_all_kubeletConfigSteps (newK8sVer : Version) (dryRun : bool) (errs : list error) :
  (forall d p r, P (Call (TempDir d p) r)) ->
  (forall v d r, P (Call (DownloadConfig v d) r)) ->
  trace_all P (kubeletConfigSteps newK8sVer dryRun errs).
Proof.
  intros HT HD. unfold kubeletConfigSteps, getKubeletDir. repeat trace_all_step.
Qed.

Lemma trace_all_certBackupSteps (cfg : MasterConfiguration) (errs : list error) :
  (forall f r, P (Call (CertsFromFile f) r)) ->
  (forall t, P (Call Now t)) ->
  (forall n p r, P (Call (Mkdir n p) r)) ->
  (forall o n r, P (Call (Rename o n) r)) ->
  (forall t u, P (Call (Printf t) u)) ->
  (forall c r, P (Call (CreateAPIServerCertAndKeyFiles c) r)) ->
  trace_all P (certBackupSteps cfg errs).
Proof.
  intros HC HN HM HR HP HI. unfold certBackupSteps.
  apply trace_all_bind; [by apply trace_all_shouldBackup |].
  intros [[|] | err]; repeat trace_all_step. by apply trace_all_backup.
Qed.

Lemma trace_all_removeOldDNSStep (cfg : MasterConfiguration) (dryRun : bool) (errs : list error) :
  (forall ns n r, P (Call (GetDeployment ns n) r)) ->
  (forall ns n r, P (Call (DeleteDeploymentForeground ns n) r)) ->
  (forall u, P (Call Pause u)) ->
  trace_all P (removeOldDNSStep cfg dryRun errs).
Proof.
  intros HG HD HP. unfold removeOldDNSStep, removeOldDNSDeploymentIfAnotherDNSIsUsed.
  destruct dryRun; cbn [negb]; [apply trace_all_ret |].
  apply trace_all_bind; [| intros; apply trace_all_ret].
  apply trace_all_TryRunCommand; [by apply trace_all_attempt | done].
Qed.

End BlockCalls.

Ltac steps_satisfy HP :=
  repeat (apply Forall_cons_2;
          [intros ?; cbn [step_body call_step block_step func_step] |]);
  try apply Forall_nil_2;
  first
    [ apply trace_all_trigger; intros; by apply HP
    | apply trace_all_kubeletConfigSteps; intros; by apply HP
    | apply trace_all_upgradeToSelfHosting; intros; by apply HP
    | apply trace_all_certBackupSteps; intros; by apply HP
    | apply trace_all_removeOldDNSStep; intros; by apply HP ].

Section Around.
Context {ext : Externals} {W : Type} (h : handler W) (P : call -> Prop).

Lemma run_around_certBackupSteps (w : W) (cfg : MasterConfiguration) (newK8sVer : Version)
    (dryRun : bool) :
  (forall c, in_cert_block c = false -> P c) ->
  exists before after errs1 w1,
    trace h (PerformPostUpgradeTasks cfg newK8sVer dryRun) w
      = before ++ trace h (certBackupSteps cfg errs1) w1 ++ after /\
    Forall P before /\ Forall P after.
Proof.
  intros HP. unfold PerformPostUpgradeTasks. step_run. rewrite app_nil_r, postUpgradeErrs_chain.
  change (postUpgradeSteps cfg newK8sVer dryRun)
    with (firstn 9 (postUpgradeSteps cfg newK8sVer dryRun)
          ++ block_step (certBackupSteps cfg) :: skipn 10 (postUpgradeSteps cfg newK8sVer dryRun)).
  apply chain_around; cbn [firstn skipn postUpgradeSteps]; steps_satisfy HP.
Qed.

Lemma run_around_upgradeToSelfHosting (w : W) (cfg : MasterConfiguration) (newK8sVer : Version)
    (dryRun : bool) :
  (forall c, in_selfhosting c = false -> P c) ->
  exists before after w1,
    trace h (PerformPostUpgradeTasks cfg newK8sVer dryRun) w
      = before ++ trace h (upgradeToSelfHosting cfg dryRun) w1 ++ after /\
    Forall P before /\ Forall P after.
Proof.
  intros HP. unfold PerformPostUpgradeTasks. step_run. rewrite app_nil_r, postUpgradeErrs_chain.
  change (postUpgradeSteps cfg newK8sVer dryRun)
    with (firstn 7 (postUpgradeSteps cfg newK8sVer dryRun)
          ++ func_step (upgradeToSelfHosting cfg dryRun)
             :: skipn 8 (postUpgradeSteps cfg newK8sVer dryRun)).
  destruct (chain_around h P (firstn 7 (postUpgradeSteps cfg newK8sVer dryRun))
              (skipn 8 (postUpgradeSteps cfg newK8sVer dryRun))
              (func_step (upgradeToSelfHosting cfg dryRun)) [] w)
    as (before & after & errs1 & w1 & Htr & Hb & Ha);
    [cbn [firstn skipn postUpgradeSteps]; steps_satisfy HP .. |].
  by exists before, after, w1.
Qed.

End Around.

(** ** When the certificate directory is touched *)

Lemma shouldBackup_run {W : Type} (h : handler W) (w : W) (certAndKeyDir : string) :
  let file := filepath_Join certAndKeyDir kubeadmconstants.APIServerCertName in
  let load := h _ (CertsFromFile file) w in
  match load.1 with
  | inl (cert :: certs) =>
      let now := (h _ Now load.2).1 in
      result h (shouldBackupAPIServerCertAndKey certAndKeyDir) w
        = inl (expiry <? Sub now (NotBefore cert)) /\
      trace h (shouldBackupAPIServerCertAndKey certAndKeyDir) w
        = [Call (CertsFromFile file) (inl (cert :: certs)); Call Now now]
  | r =>
      (exists e, result h (shouldBackupAPIServerCertAndKey certAndKeyDir) w = inr e) /\
      trace h (shouldBackupAPIServerCertAndKey certAndKeyDir) w = [Call (CertsFromFile file) r]
  end.
Proof.
  intros file load. subst load. unfold shouldBackupAPIServerCertAndKey. fold file. step_run.
  destruct (h _ (CertsFromFile file) w) as [[[|cert certs] | err] w1]; cbn [fst snd]; step_run;
    [by eauto | | by eauto].
  destruct (h _ Now w1) as [now w2]; cbn [fst snd].
  by destruct (expiry <? Sub now (NotBefore cert)); step_run.
Qed.

Lemma backup_due_skip (before rest : list call) :
  Forall (fun c => loaded_certs c = None) before -> backup_due (before ++ rest) = backup_due rest.
Proof. induction 1 as [|c before Hc _ IH]; [done |]. cbn. by rewrite Hc. Qed.

Lemma shouldBackup_due {W : Type} (h : handler W) (w : W) (certAndKeyDir : string)
    (rest : list call) :
  backup_due (trace h (shouldBackupAPIServerCertAndKey certAndKeyDir) w ++ rest)
    = match result h (shouldBackupAPIServerCertAndKey certAndKeyDir) w with
      | inl true => true
      | _ => false
      end.
Proof.
  pose proof (shouldBackup_run h w certAndKeyDir) as Hrun. cbv zeta in Hrun.
  destruct (h _ (CertsFromFile _) w).1 as [[|cert certs] | err].
  - destruct Hrun as [[e ->] ->]. done.
  - destruct Hrun as [-> ->]. cbn. by destruct (expiry <? Sub _ _).
  - destruct Hrun as [[e ->] ->]. done.
Qed.

Lemma fs_mutations_app (l1 l2 : list call) :
  fs_mutations (l1 ++ l2) = fs_mutations l1 ++ fs_mutations l2.
Proof. apply List.filter_app. Qed.

Lemma fs_mutations_none (l : list call) :
  Forall (fun c => is_fs_mutation c = false) l -> fs_mutations l = [].
Proof. induction 1 as [|c l Hc _ IH]; [done |]. cbn. by rewrite Hc. Qed.

Lemma fs_mutations_all (l : list call) :
  Forall (fun c => is_fs_mutation c = true) l -> fs_mutations l = l.
Proof. induction 1 as [|c l Hc _ IH]; [done |]. cbn. rewrite Hc. by f_equal. Qed.

Lemma backup_trace {ext : Externals} {W : Type} (h : handler W) (w : W) (certAndKeyDir : string) :
  exists r moves,
    trace h (backupAPIServerCertAndKey certAndKeyDir) w
      = Call (Mkdir (filepath_Join certAndKeyDir "expired") 502%N) r :: moves /\
    Forall (fun c => is_rename c = true) moves.
Proof.
  unfold backupAPIServerCertAndKey. step_run.
  destruct (h _ (Mkdir _ _) w) as [[e|] w1]; cbn [fst snd]; step_run.
  - by exists (Some e), [].
  - eexists None, _. split; [reflexivity |].
    by apply trace_all_moveFiles.
Qed.

(** X1. A run changes the certificate directory exactly when the first
    certificate loaded is more than 180 days old by the clock, whatever the
    dry-run flag says.  It then makes the "expired" sub-directory first,
    makes only renames after that, and ends with exactly one reissue of the
    certificate and key, also when the backup failed.  Otherwise it makes no
    such call at all. *)
Theorem certificate_directory_touched_iff_due {ext : Externals} {W : Type} (h : handler W)
    (w : W) (cfg : MasterConfiguration) (newK8sVer : Version) (dryRun : bool) :
  let tr := trace h (PerformPostUpgradeTasks cfg newK8sVer dryRun) w in
  if backup_due tr then
    exists made moves reissued,
      fs_mutations tr
        = Call (Mkdir (filepath_Join DefaultCertificatesDir "expired") 502%N) made
            :: moves ++ [Call (CreateAPIServerCertAndKeyFiles cfg) reissued] /\
      Forall (fun c => is_rename c = true) moves
  else fs_mutations tr = [].
Proof.
  intros tr. subst tr.
  destruct (run_around_certBackupSteps h
              (fun c => is_fs_mutation c = false /\ loaded_certs c = None) w cfg newK8sVer dryRun)
    as (before & after & errs1 & w1 & -> & Hb & Ha);
    [by intros [X [] x] |].
  apply Forall_and in Hb as [Hb1 Hb2]. apply Forall_and in Ha as [Ha1 _].
  rewrite (backup_due_skip _ _ Hb2), !fs_mutations_app, (fs_mutations_none _ Hb1),
    (fs_mutations_none _ Ha1), app_nil_r. cbn [app].
  pose proof (certBackupSteps_run h w1 cfg errs1) as Hrun. cbv zeta in Hrun.
  pose proof (trace_all_shouldBackup (fun c => is_fs_mutation c = false) DefaultCertificatesDir
                (fun _ _ => eq_refl) (fun _ => eq_refl) W h w1) as Hquiet.
  destruct (result h (shouldBackupAPIServerCertAndKey DefaultCertificatesDir) w1)
    as [[|] | err] eqn:Hshould.
  - destruct (backup_trace h (world h (shouldBackupAPIServerCertAndKey DefaultCertificatesDir) w1)
                DefaultCertificatesDir) as (made & moves & Hbackup & Hmoves).
    assert (Hmut : fs_mutations (trace h (backupAPIServerCertAndKey DefaultCertificatesDir)
                                   (world h (shouldBackupAPIServerCertAndKey
                                               DefaultCertificatesDir) w1))
                   = Call (Mkdir (filepath_Join DefaultCertificatesDir "expired") 502%N) made
                       :: moves).
    { rewrite Hbackup. apply (fs_mutations_all (_ :: _)). constructor; [done |].
      eapply Forall_impl; [exact Hmoves |]. by intros [X [] x]. }
    destruct (result h (backupAPIServerCertAndKey DefaultCertificatesDir) _) as [e|];
      destruct Hrun as [_ ->]; rewrite <- app_assoc, shouldBackup_due, Hshould;
      rewrite !fs_mutations_app, (fs_mutations_none _ Hquiet), Hmut; cbn; eauto.
  - destruct Hrun as [_ ->]. rewrite shouldBackup_due, Hshould.
    by rewrite (fs_mutations_none _ Hquiet).
  - destruct Hrun as [_ ->]. rewrite <- app_assoc, shouldBackup_due, Hshould.
    by rewrite fs_mutations_app, (fs_mutations_none _ Hquiet).
Qed.

(** ** Conversions in a run *)

Lemma conversions_app (l1 l2 : list call) :
  conversions (l1 ++ l2) = conversions l1 ++ conversions l2.
Proof. apply List.filter_app. Qed.

Lemma conversions_none (l : list call) :
  Forall (fun c => is_convert c = false) l -> conversions l = [].
Proof. induction 1 as [|c l Hc _ IH]; [done |]. cbn. by rewrite Hc. Qed.

(** X2. A run makes at most one conversion to a self-hosted control plane,
    and none when the SelfHosting gate is off or the control plane says it is
    self-hosted already; a conversion is handed the configuration, the
    dry-run flag of the run and the waiter that goes with the flag. *)
Theorem run_converts_at_most_once {ext : Externals} {W : Type} (h : handler W) (w : W)
    (cfg : MasterConfiguration) (newK8sVer : Version) (dryRun : bool) :
  let tr := trace h (PerformPostUpgradeTasks cfg newK8sVer dryRun) w in
  let convert := CreateSelfHostedControlPlane GetStaticPodDirectory
                   kubeadmconstants.KubernetesDir cfg (getWaiter dryRun) dryRun in
  (if Enabled (FeatureGates cfg) features.SelfHosting
   then conversions tr = [] \/ exists r, conversions tr = [Call convert r]
   else conversions tr = []) /\
  (Call IsControlPlaneSelfHosted true ∈ tr -> conversions tr = []).
Proof.
  intros tr convert. subst tr.
  destruct (run_around_upgradeToSelfHosting h (fun c => in_selfhosting c = false) w cfg
              newK8sVer dryRun) as (before & after & w1 & -> & Hb & Ha); [done |].
  assert (Hquiet : forall l, Forall (fun c => in_selfhosting c = false) l -> conversions l = []).
  { intros l Hl. apply conversions_none. eapply Forall_impl; [exact Hl |]. by intros [X [] x]. }
  rewrite !conversions_app, (Hquiet _ Hb), (Hquiet _ Ha), app_nil_r. cbn [app].
  pose proof (upgradeToSelfHosting_run h w1 cfg dryRun) as Hrun. cbv zeta in Hrun.
  fold convert in Hrun.
  assert (Htu : trace h (upgradeToSelfHosting cfg dryRun) w1
                = (run h (upgradeToSelfHosting cfg dryRun) w1).2) by done.
  destruct (Enabled (FeatureGates cfg) features.SelfHosting).
  - destruct (h _ IsControlPlaneSelfHosted w1).1; rewrite Hrun in Htu; cbn [snd] in Htu;
      rewrite Htu.
    + split; [by left | done].
    + split; [right; by eexists |].
      intros Hin. exfalso. rewrite !elem_of_app in Hin.
      destruct Hin as [Hin | [Hin | Hin]].
      * by apply (proj1 (Forall_forall _ _) Hb) in Hin.
      * repeat (apply elem_of_cons in Hin as [Heq | Hin];
                  [by apply (f_equal said_selfhosted) in Heq |]).
        by apply elem_of_nil in Hin.
      * by apply (proj1 (Forall_forall _ _) Ha) in Hin.
  - rewrite Hrun in Htu. by rewrite Htu.
Qed.

(** ** The paths a move touches *)

Lemma recorded_lookup (moved : list (string * string)) (acc : gmap string string)
    (to from : string) :
  recorded moved acc !! to = Some from -> (from, to) ∈ moved \/ acc !! to = Some from.
Proof.
  revert acc. induction moved as [|[f t] moved IH]; intros acc Hrec; [by right |].
  cbn in Hrec. apply IH in Hrec as [Hin | Hacc]; [left; by right |].
  apply lookup_insert_Some in Hacc as [[<- <-] | [_ Hacc]]; [left; by left | by right].
Qed.

Section Footprint.
Context {ext : Externals}.

Lemma rollbackFiles_footprint (files recover : gmap string string) (originalErr : error) :
  (forall to from, recover !! to = Some from -> files !! from = Some to) ->
  trace_all (moves_entry files) (rollbackFiles recover originalErr).
Proof.
  intros Hrec. unfold rollbackFiles. apply trace_all_bind; [| intros; apply trace_all_ret].
  assert (Hin : forall p, p ∈ range recover -> files !! p.2 = Some p.1).
  { intros [to from] Hp. rewrite range_perm in Hp. apply elem_of_map_to_list in Hp.
    by apply Hrec. }
  revert Hin. generalize [originalErr].
  induction (range recover) as [|[to from] todo IH]; intros errs Hin; [apply trace_all_ret |].
  cbn [rollbackFiles_loop]. apply trace_all_bind.
  - apply trace_all_trigger. intros r. exists from, to, r. split; [| by right].
    apply (Hin (to, from)). by left.
  - intros err. apply IH. intros p Hp. apply Hin. by right.
Qed.

Lemma moveFiles_loop_footprint (files : gmap string string) (todo : list (string * string))
    (acc : gmap string string) :
  (forall p, p ∈ todo -> files !! p.1 = Some p.2) ->
  (forall to from, acc !! to = Some from -> files !! from = Some to) ->
  trace_all (moves_entry files) (moveFiles_loop todo acc).
Proof.
  revert acc. induction todo as [|[from to] todo IH]; intros acc Hin Hacc; [apply trace_all_ret |].
  assert (Hentry : files !! from = Some to) by (apply (Hin (from, to)); by left).
  cbn [moveFiles_loop]. apply trace_all_bind.
  - apply trace_all_trigger. intros r. exists from, to, r. split; [done | by left].
  - intros [e|]; [by apply rollbackFiles_footprint |].
    apply IH; [intros p Hp; apply Hin; by right |].
    intros to' from' [[<- <-] | [_ Hold]]%lookup_insert_Some; [done | by apply Hacc].
Qed.

(** X3. [moveFiles] touches nothing but the paths of its map: every call it
    makes renames a source of the map to its destination, or such a
    destination back to its source.  An empty map makes no call and returns
    nil. *)
Theorem moveFiles_footprint {W : Type} (h : handler W) (w : W) (files : gmap string string) :
  Forall (moves_entry files) (trace h (moveFiles files) w) /\
  run h (moveFiles ∅) w = (None, w, []).
Proof.
  split.
  - apply moveFiles_loop_footprint; [| intros to from Hempty; by rewrite lookup_empty in Hempty].
    intros [from to] Hp. rewrite range_perm in Hp. by apply elem_of_map_to_list in Hp.
  - unfold moveFiles. pose proof (range_perm ∅) as Hperm.
    rewrite map_to_list_empty in Hperm. apply Permutation_nil_r in Hperm. by rewrite Hperm.
Qed.

(** X4. [backupAPIServerCertAndKey] makes the "expired" sub-directory with
    mode 0766 first and once, and after that only renames the certificate or
    the key between the directory and the sub-directory; it makes no other
    call, and no rename when the directory could not be made. *)
Theorem backup_footprint {W : Type} (h : handler W) (w : W) (certAndKeyDir : string) :
  let tr := trace h (backupAPIServerCertAndKey certAndKeyDir) w in
  let made := (h _ (Mkdir (filepath_Join certAndKeyDir "expired") 502%N) w).1 in
  Forall (backup_call_of certAndKeyDir) tr /\
  (exists moves,
     tr = Call (Mkdir (filepath_Join certAndKeyDir "expired") 502%N) made :: moves /\
     Forall (fun c => is_rename c = true) moves /\
     (is_Some made -> moves = [])).
Proof.
  intros tr made. subst tr made. unfold backupAPIServerCertAndKey. step_run.
  destruct (h _ (Mkdir _ _) w) as [[e|] w1]; cbn [fst snd]; step_run.
  - split; [| by exists []]. constructor; [| done]. left. by eexists.
  - set (files := <[_ := _]> (<[_ := _]> ∅)).
    split.
    + constructor; [left; by eexists |].
      eapply Forall_impl; [apply (moveFiles_loop_footprint files) |].
      * intros [from to] Hp. rewrite range_perm in Hp. by apply elem_of_map_to_list in Hp.
      * intros to from Hempty. by rewrite lookup_empty in Hempty.
      * intros c (from & to & r & Hfiles & Hc). right.
        apply lookup_insert_Some in Hfiles as [[<- <-] | [_ Hfiles]];
          [| apply lookup_insert_Some in Hfiles as [[<- <-] | [_ Hfiles]];
             [| by rewrite lookup_empty in Hfiles]].
        -- exists kubeadmconstants.APIServerCertName, r. split; [by left | done].
        -- exists kubeadmconstants.APIServerKeyName, r. split; [by right | done].
    + eexists. split; [reflexivity |]. split; [by apply trace_all_moveFiles |].
      intros [? [=]].
Qed.

End Footprint.

(** ** Moves on the file system *)

Lemma moved_over_nil (fs0 fs : gmap string node) : moved_over fs0 fs [] -> fs = fs0.
Proof.
  intros [_ Hout]. apply map_eq. intros k. apply Hout; cbn; apply not_elem_of_nil.
Qed.

Lemma moved_over_start (fs0 : gmap string node) : moved_over fs0 fs0 [].
Proof. split; [by intros p Hp%elem_of_nil | done]. Qed.

Lemma moved_over_perm (fs0 fs : gmap string node) (S S' : list (string * string)) :
  S ≡ₚ S' -> moved_over fs0 fs S -> moved_over fs0 fs S'.
Proof.
  intros Hperm [Hin Hout]. split.
  - intros p Hp. apply Hin. by rewrite Hperm.
  - intros k Hk1 Hk2. apply Hout; by rewrite Hperm.
Qed.

Lemma separate_perm (S S' : list (string * string)) : S ≡ₚ S' -> separate S -> separate S'.
Proof.
  intros Hperm (H1 & H2 & H3). repeat split.
  - by rewrite <- Hperm.
  - by rewrite <- Hperm.
  - intros k. rewrite <- !Hperm. apply H3.
Qed.

Lemma separate_app_l (S S' : list (string * string)) : separate (S ++ S') -> separate S.
Proof.
  intros (H1 & H2 & H3). rewrite !fmap_app in *.
  apply NoDup_app in H1 as (H1 & _ & _). apply NoDup_app in H2 as (H2 & _ & _).
  repeat split; [done | done |].
  intros k Hk Hk'. apply (H3 k); apply elem_of_app; by left.
Qed.

Lemma separate_cons_inv (f t : string) (S : list (string * string)) :
  separate ((f, t) :: S) ->
  separate S /\ f <> t /\ (f ∉ S.*1) /\ (f ∉ S.*2) /\ (t ∉ S.*1) /\ (t ∉ S.*2).
Proof.
  intros (H1 & H2 & H3). cbn in *.
  apply NoDup_cons in H1 as [Hf H1]. apply NoDup_cons in H2 as [Ht H2].
  repeat split; try done.
  - intros k Hk Hk'. apply (H3 k); by right.
  - intros ->. apply (H3 t); by left.
  - intros Hf'. apply (H3 f); [by left | by right].
  - intros Ht'. apply (H3 t); [by right | by left].
Qed.

Lemma moved_over_forward (fs0 fs : gmap string node) (S : list (string * string))
    (f t : string) (x : node) :
  moved_over fs0 fs S -> separate ((f, t) :: S) -> fs !! f = Some x ->
  moved_over fs0 (<[t := x]> (delete f fs)) (S ++ [(f, t)]).
Proof.
  intros [Hin Hout] (Hsep & Hft & Hf1 & Hf2 & Ht1 & Ht2)%separate_cons_inv Hx. split.
  - intros p [Hp | Hp%list_elem_of_singleton]%elem_of_app.
    + assert (p.1 ∈ S.*1) by by apply list_elem_of_fmap_2.
      assert (p.2 ∈ S.*2) by by apply list_elem_of_fmap_2.
      rewrite !lookup_insert_ne, !lookup_delete_ne by congruence. by apply Hin.
    + subst p. cbn. rewrite lookup_insert_ne, lookup_delete_eq, lookup_insert_eq by congruence.
      split; [done |]. rewrite <- (Hout f), Hx by done. split; [done | by eexists].
  - intros k Hk1 Hk2. rewrite fmap_app, not_elem_of_app in Hk1, Hk2.
    destruct Hk1 as [Hk1 Hkf%not_elem_of_cons]. destruct Hk2 as [Hk2 Hkt%not_elem_of_cons].
    cbn in Hkf, Hkt. destruct Hkf as [Hkf _], Hkt as [Hkt _].
    rewrite lookup_insert_ne, lookup_delete_ne by congruence. by apply Hout.
Qed.

Lemma moved_over_backward (fs0 fs : gmap string node) (S : list (string * string))
    (f t : string) (x : node) :
  moved_over fs0 fs ((f, t) :: S) -> separate ((f, t) :: S) -> fs0 !! t = None ->
  fs !! t = Some x ->
  moved_over fs0 (<[f := x]> (delete t fs)) S.
Proof.
  intros [Hin Hout] (Hsep & Hft & Hf1 & Hf2 & Ht1 & Ht2)%separate_cons_inv Hfree Hx. split.
  - intros p Hp.
    assert (p.1 ∈ S.*1) by by apply list_elem_of_fmap_2.
    assert (p.2 ∈ S.*2) by by apply list_elem_of_fmap_2.
    rewrite !lookup_insert_ne, !lookup_delete_ne by congruence. apply Hin. by right.
  - intros k Hk1 Hk2. destruct (decide (k = f)) as [-> | Hkf].
    + rewrite lookup_insert_eq. rewrite <- Hx.
      apply (Hin (f, t)). by left.
    + rewrite lookup_insert_ne by done. destruct (decide (k = t)) as [-> | Hkt].
      * by rewrite lookup_delete_eq.
      * rewrite lookup_delete_ne by done. apply Hout; cbn; by apply not_elem_of_cons.
Qed.

Lemma os_Rename_cases (pol : fs_policy) (fs : gmap string node) (oldpath newpath : string) :
  match (os_Rename pol fs oldpath newpath).1 with
  | None => exists x, fs !! oldpath = Some x /\
                      (os_Rename pol fs oldpath newpath).2 = <[newpath := x]> (delete oldpath fs)
  | Some _ => (os_Rename pol fs oldpath newpath).2 = fs
  end.
Proof.
  unfold os_Rename. destruct (fs !! oldpath) as [x|]; [| done].
  destruct (rename_denied pol fs oldpath newpath); [done |]. by exists x.
Qed.

Lemma with_fs_rename {W : Type} (pol : fs_policy) (h : handler W) (fs : gmap string node)
    (w : W) (oldpath newpath : string) :
  with_fs pol h _ (Rename oldpath newpath) (fs, w)
    = ((os_Rename pol fs oldpath newpath).1, ((os_Rename pol fs oldpath newpath).2, w)).
Proof. cbn. by destruct (os_Rename pol fs oldpath newpath). Qed.

Section MovesOnFs.
Context {ext : Externals} {W : Type} (pol : fs_policy) (h : handler W).

Lemma rollbackFiles_loop_restores (fs0 : gmap string node) (todo : list (string * string))
    (errs : list error) (fs : gmap string node) (w : W) :
  moved_over fs0 fs (reversal <$> todo) -> separate (reversal <$> todo) ->
  (forall p, p ∈ todo -> fs0 !! p.1 = None) ->
  rename_errors (trace (with_fs pol h) (rollbackFiles_loop todo errs) (fs, w)) = [] ->
  world (with_fs pol h) (rollbackFiles_loop todo errs) (fs, w) = (fs0, w).
Proof.
  revert errs fs. induction todo as [|[to from] todo IH]; intros errs fs Hover Hsep Hfree Hok.
  - apply moved_over_nil in Hover. by subst.
  - revert Hok. cbn [rollbackFiles_loop]. step_run. rewrite with_fs_rename. cbn [fst snd app].
    rewrite rename_errors_cons.
    pose proof (os_Rename_cases pol fs to from) as Hcases.
    destruct (os_Rename pol fs to from).1 as [e|]; [done |].
    destruct Hcases as (x & Hx & ->). intros Hok.
    change (reversal <$> (to, from) :: todo) with ((from, to) :: (reversal <$> todo)) in *.
    apply IH; [| exact (proj1 (separate_cons_inv _ _ _ Hsep))
               | intros p Hp; apply Hfree; by right | done].
    apply (moved_over_backward fs0 fs _ from to x); [done | done | | done].
    apply (Hfree (to, from)). by left.
Qed.

Lemma moveFiles_loop_on_fs (fs0 : gmap string node) (todo : list (string * string))
    (S : list (string * string)) (acc : gmap string string) (fs : gmap string node) (w : W) :
  separate (S ++ todo) -> moved_over fs0 fs S ->
  (result (with_fs pol h) (moveFiles_loop todo acc) (fs, w) = None /\
   trace (with_fs pol h) (moveFiles_loop todo acc) (fs, w) = renamed_ok todo /\
   exists fs', world (with_fs pol h) (moveFiles_loop todo acc) (fs, w) = (fs', w) /\
               moved_over fs0 fs' (S ++ todo)) \/
  (exists moved from to e0 rest fs',
     todo = moved ++ (from, to) :: rest /\
     moved_over fs0 fs' (S ++ moved) /\
     run (with_fs pol h) (moveFiles_loop todo acc) (fs, w)
       = (result (with_fs pol h) (rollbackFiles (recorded moved acc) e0) (fs', w),
          world (with_fs pol h) (rollbackFiles (recorded moved acc) e0) (fs', w),
          renamed_ok moved ++ Call (Rename from to) (Some e0)
            :: trace (with_fs pol h) (rollbackFiles (recorded moved acc) e0) (fs', w))).
Proof.
  revert S acc fs. induction todo as [|[from to] todo IH]; intros S acc fs Hsep Hover.
  - left. rewrite app_nil_r. split; [done |]. split; [done |]. by exists fs.
  - pose proof (os_Rename_cases pol fs from to) as Hcases.
    assert (Hstep : run (with_fs pol h) (moveFiles_loop ((from, to) :: todo) acc) (fs, w)
              = match (os_Rename pol fs from to).1 with
                | Some e =>
                    let r := run (with_fs pol h) (rollbackFiles acc e)
                               ((os_Rename pol fs from to).2, w) in
                    (r.1.1, r.1.2, Call (Rename from to) (Some e) :: r.2)
                | None =>
                    let r := run (with_fs pol h) (moveFiles_loop todo (<[to := from]> acc))
                               ((os_Rename pol fs from to).2, w) in
                    (r.1.1, r.1.2, Call (Rename from to) None :: r.2)
                end).
    { cbn [moveFiles_loop]. rewrite run_bind.
      change (run (with_fs pol h) (trigger (Rename from to)) (fs, w))
        with (let '(x, w1) := with_fs pol h _ (Rename from to) (fs, w) in
              (x, w1, [Call (Rename from to) x])).
      rewrite with_fs_rename. by destruct (os_Rename pol fs from to).1. }
    destruct (os_Rename pol fs from to).1 as [e0|].
    + right. exists [], from, to, e0, todo, fs. rewrite Hcases in Hstep.
      split; [done |]. rewrite app_nil_r. split; [done |]. rewrite Hstep.
      unfold result, world, trace. by destruct (run _ _ _) as [[? ?] ?].
    + destruct Hcases as (x & Hx & Hfs). rewrite Hfs in Hstep.
      assert (Hsep' : separate ((S ++ [(from, to)]) ++ todo)) by by rewrite <- app_assoc.
      assert (Hover' : moved_over fs0 (<[to := x]> (delete from fs)) (S ++ [(from, to)])).
      { apply moved_over_forward; [done | | done].
        apply (separate_perm ((S ++ [(from, to)]))); [by rewrite Permutation_app_comm |].
        by apply separate_app_l in Hsep'. }
      destruct (IH (S ++ [(from, to)]) (<[to := from]> acc) _ Hsep' Hover')
        as [(Hres & Htr & fs' & Hworld & Hfinal) | Hfail].
      * left. unfold result, world, trace in *. rewrite Hstep. cbn [fst snd].
        split; [done |]. split; [by rewrite Htr |]. exists fs'.
        split; [done |]. by rewrite <- app_assoc in Hfinal.
      * destruct Hfail as (moved & from' & to' & e0 & rest & fs' & -> & Hmoved & Hrun).
        right. exists ((from, to) :: moved), from', to', e0, rest, fs'.
        split; [done |]. split; [by rewrite <- app_assoc in Hmoved |].
        rewrite Hstep, Hrun. done.
Qed.

End MovesOnFs.

Lemma reversal_reversal (l : list (string * string)) : reversal <$> (reversal <$> l) = l.
Proof. induction l as [|[a b] l IH]; [done |]. cbn. by rewrite IH. Qed.

Section MoveFilesOnFs.
Context {ext : Externals} {W : Type} (pol : fs_policy) (h : handler W).

Lemma range_entry (files : gmap string string) (from to : string) :
  (from, to) ∈ range files <-> files !! from = Some to.
Proof. rewrite range_perm. apply elem_of_map_to_list. Qed.

Lemma separate_range (files : gmap string string) : separate_map files -> separate (range files).
Proof.
  intros [Hdest Hsrc]. repeat split.
  - rewrite range_perm. apply NoDup_fst_map_to_list.
  - by rewrite range_perm.
  - intros k [[from to] [-> Hfrom]]%list_elem_of_fmap [[from' to'] [Heq Hto]]%list_elem_of_fmap.
    cbn in Heq. subst to'. apply range_entry in Hfrom, Hto.
    apply Hsrc in Hto. congruence.
Qed.

(** A run of [moveFiles] that returns nil leaves every move through. *)
Lemma moveFiles_through (files : gmap string string) (fs : gmap string node) (w : W) :
  separate_map files ->
  result (with_fs pol h) (moveFiles files) (fs, w) = None ->
  exists fs', world (with_fs pol h) (moveFiles files) (fs, w) = (fs', w) /\
              moved_over fs fs' (range files).
Proof.
  intros Hsep Hnil. unfold moveFiles in *.
  destruct (moveFiles_loop_on_fs pol h fs (range files) [] ∅ fs w)
    as [(_ & _ & fs' & Hworld & Hover) | Hfail];
    [by apply separate_range | apply moved_over_start | by exists fs' |].
  destruct Hfail as (moved & from & to & e0 & rest & fs' & _ & _ & Hrun).
  unfold result in Hnil at 1. rewrite Hrun in Hnil. cbn [fst] in Hnil.
  destruct (rollbackFiles_run (with_fs pol h) (recorded moved ∅) e0 (fs', w))
    as (_ & _ & err & Herr & _). congruence.
Qed.

(** A run of [moveFiles] in which one rename failed and no other, over
    destinations that were free, leaves the file system as it was. *)
Lemma moveFiles_undone (files : gmap string string) (fs : gmap string node) (w : W) :
  separate_map files ->
  (forall from to, files !! from = Some to -> fs !! to = None) ->
  length (rename_errors (trace (with_fs pol h) (moveFiles files) (fs, w))) = 1%nat ->
  world (with_fs pol h) (moveFiles files) (fs, w) = (fs, w) /\
  is_Some (result (with_fs pol h) (moveFiles files) (fs, w)).
Proof.
  intros Hsep Hfree Hone. unfold moveFiles in *.
  pose proof (separate_range files Hsep) as Hrange.
  destruct (moveFiles_loop_on_fs pol h fs (range files) [] ∅ fs w Hrange (moved_over_start fs))
    as [(_ & Htr & _) | Hfail].
  { rewrite Htr, rename_errors_renamed_ok in Hone. discriminate Hone. }
  destruct Hfail as (moved & from & to & e0 & rest & fs' & Hsplit & Hover & Hrun).
  cbn [app] in Hover. unfold trace in Hone at 1. unfold world at 1, result at 1.
  rewrite Hrun in *. cbn [fst snd] in *.
  rewrite rename_errors_app, rename_errors_renamed_ok, rename_errors_cons in Hone.
  cbn [app length] in Hone.
  destruct (rollbackFiles_run (with_fs pol h) (recorded moved ∅) e0 (fs', w))
    as (_ & _ & err & Herr & _).
  split; [| rewrite Herr; by eexists].
  revert Hone. unfold rollbackFiles. step_run. rewrite app_nil_r. intros Hone.
  assert (Hmoved : separate moved) by (rewrite Hsplit in Hrange; by apply separate_app_l in Hrange).
  assert (Hperm : reversal <$> range (recorded moved ∅) ≡ₚ moved).
  { rewrite range_perm, recorded_entries, map_to_list_empty, app_nil_r;
      [| apply Hmoved | intros; apply lookup_empty].
    by rewrite reversal_reversal. }
  apply rollbackFiles_loop_restores.
  - by apply (moved_over_perm _ _ moved).
  - by apply (separate_perm moved).
  - intros [to' from'] Hp. apply range_entry in Hp.
    apply recorded_lookup in Hp as [Hp | Hp]; [| by rewrite lookup_empty in Hp].
    apply (Hfree from' to'). apply range_entry. rewrite Hsplit. apply elem_of_app. by left.
  - apply nil_length_inv. by injection Hone.
Qed.

(** X5. On a file system where a successful rename moves one entry,
    [moveFiles] over moves that do not get in each other's way returns nil
    only when every move went through: every source was there and is gone,
    every destination holds what its source held, and every other path is as
    it was. *)
Theorem moveFiles_moves_every_file (files : gmap string string) (fs : gmap string node)
    (w : W) :
  separate_map files ->
  result (with_fs pol h) (moveFiles files) (fs, w) = None ->
  exists fs',
    world (with_fs pol h) (moveFiles files) (fs, w) = (fs', w) /\
    (forall from to, files !! from = Some to ->
       is_Some (fs !! from) /\ fs' !! from = None /\ fs' !! to = fs !! from) /\
    (forall k, files !! k = None -> (forall from, files !! from <> Some k) ->
       fs' !! k = fs !! k).
Proof.
  intros Hsep Hnil. destruct (moveFiles_through files fs w Hsep Hnil) as (fs' & Hworld & Hin & Hout).
  exists fs'. split; [done |]. split.
  - intros from to Hentry. apply range_entry in Hentry.
    destruct (Hin _ Hentry) as (Hgone & Hthere & Hwas). done.
  - intros k Hk Hnodest. apply Hout.
    + intros [[from to] [-> Hp]]%list_elem_of_fmap. apply range_entry in Hp. cbn in Hk. congruence.
    + intros [[from to] [Heq Hp]]%list_elem_of_fmap. apply range_entry in Hp. cbn in Heq.
      subst to. by apply (Hnodest from).
Qed.

(** X6. On such a file system, when one rename of [moveFiles] failed and
    every rename that undoes a completed move succeeded, over moves that do
    not get in each other's way and destinations that were free, the file
    system is left exactly as it was, and the call returns an error. *)
Theorem moveFiles_failure_restores (files : gmap string string) (fs : gmap string node)
    (w : W) :
  separate_map files ->
  (forall from to, files !! from = Some to -> fs !! to = None) ->
  length (rename_errors (trace (with_fs pol h) (moveFiles files) (fs, w))) = 1%nat ->
  world (with_fs pol h) (moveFiles files) (fs, w) = (fs, w) /\
  is_Some (result (with_fs pol h) (moveFiles files) (fs, w)) /\
  exists moved from to e0 back,
    trace (with_fs pol h) (moveFiles files) (fs, w)
      = renamed_ok moved ++ Call (Rename from to) (Some e0) :: back /\
    rename_errors back = [].
Proof.
  intros Hsep Hfree Hone.
  destruct (moveFiles_undone files fs w Hsep Hfree Hone) as [Hworld Hres].
  split; [done |]. split; [done |].
  destruct (moveFiles_loop_run (with_fs pol h) (range files) ∅ (fs, w)) as [[_ Htr] | Hfail].
  - unfold moveFiles in Hone. rewrite Htr, rename_errors_renamed_ok in Hone. discriminate Hone.
  - destruct Hfail as (moved & from & to & e0 & rest & w' & _ & Htr & _).
    exists moved, from, to, e0, (trace (with_fs pol h) (rollbackFiles (recorded moved ∅) e0) w').
    split; [exact Htr |]. unfold moveFiles in Hone.
    rewrite Htr, rename_errors_app, rename_errors_renamed_ok, rename_errors_cons in Hone.
    apply nil_length_inv. by injection Hone.
Qed.

End MoveFilesOnFs.

(** ** The backup on the file system *)

Lemma join_join_eq (dir a b c : string) :
  filepath_Join (filepath_Join dir a) b = filepath_Join dir c -> c = a +:+ "/" +:+ b.
Proof.
  unfold filepath_Join. rewrite string_app_assoc. intros Heq.
  apply (inj (String.app dir)) in Heq. rewrite string_app_assoc in Heq.
  by apply (inj (String.app "/")) in Heq.
Qed.

Lemma backup_moves_lookup (dir from to : string) :
  backup_moves dir !! from = Some to <->
  exists name,
    (name = kubeadmconstants.APIServerCertName \/ name = kubeadmconstants.APIServerKeyName) /\
    from = filepath_Join dir name /\ to = filepath_Join (filepath_Join dir "expired") name.
Proof.
  unfold backup_moves. rewrite !lookup_insert_Some, lookup_empty. split.
  - intros [[<- <-] | [_ [[<- <-] | [_ [=]]]]].
    + exists kubeadmconstants.APIServerCertName. by split; [left |].
    + exists kubeadmconstants.APIServerKeyName. by split; [right |].
  - intros (name & [-> | ->] & -> & ->); [by left |]. right.
    split; [by intros Heq%join_inj_name | by left].
Qed.

Lemma backup_moves_separate (dir : string) : separate_map (backup_moves dir).
Proof.
  split.
  - unfold backup_moves. rewrite !map_to_list_insert, map_to_list_empty.
    + cbn. apply NoDup_cons. split; [| apply NoDup_singleton].
      by intros Heq%list_elem_of_singleton%join_inj_name.
    + apply lookup_empty.
    + rewrite lookup_insert_ne; [apply lookup_empty | by intros Heq%join_inj_name].
  - intros from to (name & Hname & -> & ->)%backup_moves_lookup.
    destruct (backup_moves dir !! _) as [to'|] eqn:Hto; [| done].
    apply backup_moves_lookup in Hto as (name' & Hname' & Heq%join_join_eq & _).
    by destruct Hname as [-> | ->], Hname' as [-> | ->].
Qed.

Lemma os_Mkdir_cases (pol : fs_policy) (fs : gmap string node) (name : string) :
  match (os_Mkdir pol fs name).1 with
  | None => fs !! name = None /\ (os_Mkdir pol fs name).2 = <[name := Dir]> fs
  | Some _ => (os_Mkdir pol fs name).2 = fs
  end.
Proof.
  unfold os_Mkdir. destruct (fs !! name); [done |]. by destruct (mkdir_denied pol fs name).
Qed.

Lemma failures_renames (tr : list call) :
  Forall (fun c => is_rename c = true) tr -> length (failures tr) = length (rename_errors tr).
Proof.
  induction 1 as [|[X e x] tr Hc _ IH]; [done |].
  destruct e; try discriminate Hc.
  destruct x as [err|]; rewrite rename_errors_cons; unfold failures in *;
    cbn [List.filter call_ok negb length]; by rewrite IH.
Qed.

Section BackupOnFs.
Context {ext : Externals} {W : Type} (pol : fs_policy) (h : handler W).

Lemma backup_on_fs (certAndKeyDir : string) (fs : gmap string node) (w : W) :
  let subDir := filepath_Join certAndKeyDir "expired" in
  run (with_fs pol h) (backupAPIServerCertAndKey certAndKeyDir) (fs, w)
    = match (os_Mkdir pol fs subDir).1 with
      | Some e =>
          (Some (Errorf ("failed to created backup directory " +:+ subDir +:+ ": " +:+ Error e)),
           (fs, w), [Call (Mkdir subDir 502%N) (Some e)])
      | None =>
          (result (with_fs pol h) (moveFiles (backup_moves certAndKeyDir)) (<[subDir := Dir]> fs, w),
           world (with_fs pol h) (moveFiles (backup_moves certAndKeyDir)) (<[subDir := Dir]> fs, w),
           Call (Mkdir subDir 502%N) None
             :: trace (with_fs pol h) (moveFiles (backup_moves certAndKeyDir))
                  (<[subDir := Dir]> fs, w))
      end.
Proof.
  intros subDir. unfold backupAPIServerCertAndKey. fold subDir. fold (backup_moves certAndKeyDir).
  rewrite run_bind.
  change (run (with_fs pol h) (trigger (Mkdir subDir 502%N)) (fs, w))
    with (let '(x, w1) := with_fs pol h _ (Mkdir subDir 502%N) (fs, w) in
          (x, w1, [Call (Mkdir subDir 502%N) x])).
  cbn [with_fs fst snd]. pose proof (os_Mkdir_cases pol fs subDir) as Hcases.
  destruct (os_Mkdir pol fs subDir) as [[e|] fs1]; cbn [fst snd] in *.
  - by subst fs1.
  - destruct Hcases as [_ ->]. unfold result, world, trace.
    by destruct (run _ (moveFiles _) _) as [[? ?] ?].
Qed.

(** X7. On a file system where a successful rename moves one entry, a backup
    that returns nil has made the "expired" sub-directory, which was not
    there, and has moved the certificate and the key into it: both were in
    the directory and are gone from it, the sub-directory holds what they
    held, and every other path is as it was. *)
Theorem backup_moves_cert_and_key (certAndKeyDir : string) (fs : gmap string node) (w : W) :
  let subDir := filepath_Join certAndKeyDir "expired" in
  result (with_fs pol h) (backupAPIServerCertAndKey certAndKeyDir) (fs, w) = None ->
  exists fs',
    world (with_fs pol h) (backupAPIServerCertAndKey certAndKeyDir) (fs, w) = (fs', w) /\
    fs !! subDir = None /\ fs' !! subDir = Some Dir /\
    (forall name,
       name = kubeadmconstants.APIServerCertName \/ name = kubeadmconstants.APIServerKeyName ->
       is_Some (fs !! filepath_Join certAndKeyDir name) /\
       fs' !! filepath_Join certAndKeyDir name = None /\
       fs' !! filepath_Join subDir name = fs !! filepath_Join certAndKeyDir name) /\
    (forall k,
       k <> subDir ->
       (forall name,
          name = kubeadmconstants.APIServerCertName \/ name = kubeadmconstants.APIServerKeyName ->
          k <> filepath_Join certAndKeyDir name /\ k <> filepath_Join subDir name) ->
       fs' !! k = fs !! k).
Proof.
  intros subDir Hnil. pose proof (backup_on_fs certAndKeyDir fs w) as Hrun. cbv zeta in Hrun.
  fold subDir in Hrun. pose proof (os_Mkdir_cases pol fs subDir) as Hmk.
  unfold result in Hnil at 1. unfold world at 1. rewrite Hrun in *.
  destruct (os_Mkdir pol fs subDir).1 as [e|]; [discriminate Hnil |].
  destruct Hmk as [Hfresh _]. cbn [fst snd] in *.
  destruct (moveFiles_through pol h (backup_moves certAndKeyDir) _ w
              (backup_moves_separate certAndKeyDir) Hnil) as (fs' & Hworld & Hin & Hout).
  assert (Hsub : forall name, filepath_Join certAndKeyDir name = subDir -> name = "expired")
    by (intros name Heq; by apply join_inj_name in Heq).
  exists fs'. split; [done |]. split; [done |]. split; [| split].
  - rewrite Hout; [apply lookup_insert_eq | |].
    + intros [[from to] [Heq Hp]]%list_elem_of_fmap. apply range_entry in Hp.
      apply backup_moves_lookup in Hp as (name & Hname & -> & _). cbn in Heq.
      symmetry in Heq. apply Hsub in Heq. by destruct Hname as [-> | ->].
    + intros [[from to] [Heq Hp]]%list_elem_of_fmap. apply range_entry in Hp.
      apply backup_moves_lookup in Hp as (name & _ & _ & ->). cbn in Heq.
      symmetry in Heq. by apply join_join_ne in Heq.
  - intros name Hname.
    assert (Hentry : (filepath_Join certAndKeyDir name, filepath_Join subDir name)
                       ∈ range (backup_moves certAndKeyDir))
      by (apply range_entry, backup_moves_lookup; by exists name).
    destruct (Hin _ Hentry) as (Hgone & Hthere & Hwas). cbn [fst snd] in *.
    assert (Hne : subDir <> filepath_Join certAndKeyDir name).
    { intros Heq. symmetry in Heq. apply Hsub in Heq. by destruct Hname as [-> | ->]. }
    rewrite lookup_insert_ne in Hthere by done. rewrite lookup_insert_ne in Hwas by done.
    done.
  - intros k Hk Hother. rewrite Hout; [by apply lookup_insert_ne | |].
    + intros [[from to] [-> Hp]]%list_elem_of_fmap. apply range_entry in Hp.
      apply backup_moves_lookup in Hp as (name & Hname & -> & _).
      by destruct (Hother name Hname) as [Hsrc _].
    + intros [[from to] [-> Hp]]%list_elem_of_fmap. apply range_entry in Hp.
      apply backup_moves_lookup in Hp as (name & Hname & _ & ->).
      by destruct (Hother name Hname) as [_ Hdst].
Qed.

(** X8. On such a file system with nothing yet under "expired", a backup in
    which exactly one call failed leaves the certificate and the key where
    they were and returns an error.  When the failed call was [os.Mkdir] the
    file system is as it was; when it was a rename, the one difference is the
    "expired" sub-directory, which stays behind. *)
Theorem backup_failure_leaves_files (certAndKeyDir : string) (fs : gmap string node) (w : W) :
  let subDir := filepath_Join certAndKeyDir "expired" in
  let tr := trace (with_fs pol h) (backupAPIServerCertAndKey certAndKeyDir) (fs, w) in
  let made := (with_fs pol h _ (Mkdir subDir 502%N) (fs, w)).1 in
  (forall name,
     name = kubeadmconstants.APIServerCertName \/ name = kubeadmconstants.APIServerKeyName ->
     fs !! filepath_Join subDir name = None) ->
  length (failures tr) = 1%nat ->
  is_Some (result (with_fs pol h) (backupAPIServerCertAndKey certAndKeyDir) (fs, w)) /\
  world (with_fs pol h) (backupAPIServerCertAndKey certAndKeyDir) (fs, w)
    = (match made with Some _ => fs | None => <[subDir := Dir]> fs end, w).
Proof.
  intros subDir tr made Hfree Hone. subst tr.
  assert (Hmade : made = (os_Mkdir pol fs subDir).1)
    by (subst made; cbn; by destruct (os_Mkdir pol fs subDir)).
  rewrite Hmade. clear Hmade made.
  pose proof (backup_on_fs certAndKeyDir fs w) as Hrun. cbv zeta in Hrun. fold subDir in Hrun.
  unfold result at 1, world at 1. unfold trace in *. rewrite Hrun in *. clear Hrun.
  destruct (os_Mkdir pol fs subDir).1 as [e|]; cbn [fst snd] in *; [split; [by eexists | done] |].
  change (failures (Call (Mkdir subDir 502%N) None :: ?l)) with (failures l) in *.
  pose proof (trace_all_moveFiles (fun c => is_rename c = true) (backup_moves certAndKeyDir)
                (fun _ _ _ => eq_refl) _ (with_fs pol h) (<[subDir := Dir]> fs, w)) as Hren.
  unfold trace in Hren. rewrite (failures_renames _ Hren) in Hone.
  apply and_comm.
  apply (moveFiles_undone pol h (backup_moves certAndKeyDir) (<[subDir := Dir]> fs) w
           (backup_moves_separate certAndKeyDir)); [| done].
  intros from to (name & Hname & _ & ->)%backup_moves_lookup.
  rewrite lookup_insert_ne; [by apply Hfree |].
  intros Heq. symmetry in Heq. by apply join_join_ne in Heq.
Qed.

End BackupOnFs.

(** ** What the determination reads *)

(** X9. The determination reads nothing of the certificate file but the
    NotBefore of the first certificate: two files whose first certificates
    were issued at the same time get the same answer, whatever their NotAfter
    and whatever certificates follow. *)
Theorem shouldBackup_reads_first_NotBefore {W : Type} (h : handler W) (w : W)
    (certAndKeyDir : string) (issued expires expires' : Time) (others others' : list Certificate) :
  result (answering_certs ({| NotBefore := issued; NotAfter := expires |} :: others) h)
    (shouldBackupAPIServerCertAndKey certAndKeyDir) w
  = result (answering_certs ({| NotBefore := issued; NotAfter := expires' |} :: others') h)
      (shouldBackupAPIServerCertAndKey certAndKeyDir) w.
Proof.
  pose proof (shouldBackup_run
                (answering_certs ({| NotBefore := issued; NotAfter := expires |} :: others) h)
                w certAndKeyDir) as [Hleft _].
  pose proof (shouldBackup_run
                (answering_certs ({| NotBefore := issued; NotAfter := expires' |} :: others') h)
                w certAndKeyDir) as [Hright _].
  cbn [answering_certs fst snd NotBefore] in Hleft, Hright. by rewrite Hleft, Hright.
Qed.

(** ** The kubelet configuration in a run *)

Lemma run_around_kubeletConfigSteps {ext : Externals} {W : Type} (h : handler W)
    (P : call -> Prop) (w : W) (cfg : MasterConfiguration) (newK8sVer : Version) (dryRun : bool) :
  (forall c, is_kubelet_call c = false -> P c) ->
  exists before after errs1 w1,
    trace h (PerformPostUpgradeTasks cfg newK8sVer dryRun) w
      = before ++ trace h (kubeletConfigSteps newK8sVer dryRun errs1) w1 ++ after /\
    Forall P before /\ Forall P after.
Proof.
  intros HP. unfold PerformPostUpgradeTasks. step_run. rewrite app_nil_r, postUpgradeErrs_chain.
  change (postUpgradeSteps cfg newK8sVer dryRun)
    with (firstn 2 (postUpgradeSteps cfg newK8sVer dryRun)
          ++ block_step (kubeletConfigSteps newK8sVer dryRun)
             :: skipn 3 (postUpgradeSteps cfg newK8sVer dryRun)).
  apply chain_around; cbn [firstn skipn postUpgradeSteps]; steps_satisfy HP.
Qed.

Lemma kubelet_calls_none (l : list call) :
  Forall (fun c => is_kubelet_call c = false) l -> kubelet_calls l = [].
Proof. induction 1 as [|c l Hc _ IH]; [done |]. cbn. by rewrite Hc. Qed.

(** X10. A real run makes no temporary directory and downloads the kubelet
    configuration exactly once, into the fixed kubelet directory.  A dry run
    asks for one temporary directory and makes one download, into the
    directory it got, or none when it got no directory. *)
Theorem run_downloads_kubelet_config_once {ext : Externals} {W : Type} (h : handler W) (w : W)
    (cfg : MasterConfiguration) (newK8sVer : Version) (dryRun : bool) :
  let tr := trace h (PerformPostUpgradeTasks cfg newK8sVer dryRun) w in
  if dryRun then
    exists made r,
      kubelet_calls tr
        = Call (TempDir "" "kubeadm-upgrade-dryrun") made
            :: match made with
               | inl kubeletDir => [Call (DownloadConfig newK8sVer kubeletDir) r]
               | inr _ => []
               end
  else
    exists r,
      kubelet_calls tr
        = [Call (DownloadConfig newK8sVer kubeadmconstants.KubeletRunDirectory) r].
Proof.
  intros tr. subst tr.
  destruct (run_around_kubeletConfigSteps h (fun c => is_kubelet_call c = false) w cfg
              newK8sVer dryRun) as (before & after & errs1 & w1 & -> & Hb & Ha); [done |].
  unfold kubelet_calls. rewrite !List.filter_app.
  change (List.filter is_kubelet_call) with kubelet_calls.
  rewrite (kubelet_calls_none _ Hb), (kubelet_calls_none _ Ha), app_nil_r. cbn [app].
  unfold kubeletConfigSteps, getKubeletDir. destruct dryRun; step_run.
  - destruct (h _ (TempDir "" "kubeadm-upgrade-dryrun") w1) as [[dir | err] w2];
      cbn [fst snd]; step_run; [| by exists (inr err), None].
    destruct (h _ (DownloadConfig newK8sVer dir) w2) as [r w3]; cbn [fst snd].
    exists (inl dir), r.
    by destruct r as [e|]; [destruct (negb (IsNotFound e && true)) |]; step_run.
  - destruct (h _ (DownloadConfig newK8sVer kubeadmconstants.KubeletRunDirectory) w1)
      as [r w3]; cbn [fst snd]. exists r.
    by destruct r as [e|]; [destruct (negb (IsNotFound e && false)) |]; step_run.
Qed.

(** ** Instances of the further properties *)

(** With the backup directory made and both files in place, the moves of a
    backup go through. *)
Lemma moveFiles_moves_every_file_witness :
  separate_map pki_moves /\
  result fresh_cluster (moveFiles (ext := listing_externals) pki_moves) (pki_fs_backed_up, false)
    = None /\
  exists fs',
    world fresh_cluster (moveFiles (ext := listing_externals) pki_moves) (pki_fs_backed_up, false)
      = (fs', false) /\
    fs' !! "/etc/kubernetes/pki/apiserver.crt" = None /\
    fs' !! "/etc/kubernetes/pki/expired/apiserver.crt" = Some (File "cert").
Proof.
  split; [exact (backup_moves_separate DefaultCertificatesDir) |].
  split; [vm_compute; reflexivity |].
  destruct (moveFiles_moves_every_file (ext := listing_externals) permissive
              (scripted (healthy 0)) pki_moves pki_fs_backed_up false
              (backup_moves_separate DefaultCertificatesDir))
    as (fs' & Hworld & Hin & _); [vm_compute; reflexivity |].
  exists fs'. split; [exact Hworld |].
  destruct (Hin "/etc/kubernetes/pki/apiserver.crt" "/etc/kubernetes/pki/expired/apiserver.crt")
    as (_ & Hgone & Hthere); [vm_compute; reflexivity |].
  split; [exact Hgone |]. rewrite Hthere. vm_compute. reflexivity.
Defined.

Lemma pki_destinations_free (fs : gmap string node) :
  fs !! "/etc/kubernetes/pki/expired/apiserver.crt" = None ->
  fs !! "/etc/kubernetes/pki/expired/apiserver.key" = None ->
  forall from to, pki_moves !! from = Some to -> fs !! to = None.
Proof.
  intros Hcrt Hkey from to Hentry.
  apply (backup_moves_lookup DefaultCertificatesDir) in Hentry as (name & [-> | ->] & _ & ->);
    [exact Hcrt | exact Hkey].
Qed.

(** With the certificate missing, the key is moved, the move of the
    certificate fails, the key is moved back, and nothing has changed. *)
Lemma moveFiles_failure_restores_witness :
  world fresh_cluster (moveFiles (ext := listing_externals) pki_moves) (pki_fs_without_cert, false)
    = (pki_fs_without_cert, false) /\
  is_Some (result fresh_cluster (moveFiles (ext := listing_externals) pki_moves)
             (pki_fs_without_cert, false)).
Proof.
  destruct (moveFiles_failure_restores (ext := listing_externals) permissive
              (scripted (healthy 0)) pki_moves pki_fs_without_cert false
              (backup_moves_separate DefaultCertificatesDir))
    as (Hworld & Hres & _).
  - apply pki_destinations_free; vm_compute; reflexivity.
  - vm_compute. reflexivity.
  - split; [exact Hworld | exact Hres].
Defined.

(** A backup of a certificate directory holding both files returns nil and
    moves them. *)
Lemma backup_moves_cert_and_key_witness :
  result fresh_cluster (backupAPIServerCertAndKey (ext := listing_externals) DefaultCertificatesDir)
    (pki_fs, false) = None /\
  exists fs',
    world fresh_cluster (backupAPIServerCertAndKey (ext := listing_externals)
                           DefaultCertificatesDir) (pki_fs, false) = (fs', false) /\
    fs' !! "/etc/kubernetes/pki/expired" = Some Dir /\
    fs' !! "/etc/kubernetes/pki" = Some Dir.
Proof.
  split; [vm_compute; reflexivity |].
  destruct (backup_moves_cert_and_key (ext := listing_externals) permissive
              (scripted (healthy 0)) DefaultCertificatesDir pki_fs false)
    as (fs' & Hworld & _ & Hsub & _ & Hother); [vm_compute; reflexivity |].
  exists fs'. split; [exact Hworld |]. split; [exact Hsub |].
  rewrite (Hother "/etc/kubernetes/pki").
  - vm_compute. reflexivity.
  - discriminate.
  - intros name [-> | ->]; split; discriminate.
Defined.

(** A backup of a certificate directory from which the certificate is
    missing fails on one rename and leaves only the new sub-directory. *)
Lemma backup_failure_leaves_files_witness :
  is_Some (result fresh_cluster (backupAPIServerCertAndKey (ext := listing_externals)
                                   DefaultCertificatesDir) (pki_fs_missing_cert, false)) /\
  world fresh_cluster (backupAPIServerCertAndKey (ext := listing_externals)
                         DefaultCertificatesDir) (pki_fs_missing_cert, false)
    = (<[filepath_Join DefaultCertificatesDir "expired" := Dir]> pki_fs_missing_cert, false).
Proof.
  refine (backup_failure_leaves_files (ext := listing_externals) permissive
            (scripted (healthy 0)) DefaultCertificatesDir pki_fs_missing_cert false _ _).
  - intros name [-> | ->]; vm_compute; reflexivity.
  - vm_compute. reflexivity.
Defined.
